(** * go-jup-ag: a shallow embedding of the Jupiter aggregator client

    The development follows the repository file by file:
    - [strconv], [time], [heimdall]: the few functions of the Go standard
      library and of the HTTP transport library that the client calls and
      whose arithmetic matters to the properties below;
    - [utils]: [StructToUrlValues];
    - the data types of package [jupag] and [GetRoutesForMint];
    - [Part000] and [Part001]: the two revisions of the client
      ([src/unnamed/part_000] and [src/unnamed/part_001]).

    Go values are modelled as follows.  A string is a [string] (a sequence
    of bytes), an [int], [int64] or [uint64] is a [Z] with the wrap-around
    of conversions written out, a [map[string]T] is a [gmap string T], a
    Go result pair [(v, err)] is a Rocq pair whose second component is an
    [option error] ([None] is the nil error), and a run-time panic is an
    explicit outcome. *)

From Stdlib Require Import ZArith String Ascii List Lia.
From stdpp Require Import base option list strings gmap pretty.

Local Open Scope string_scope.

(** ** Errors *)

(** The kinds of failure [strconv] reports inside a [*NumError]. *)
Inductive NumErrKind : Type :=
| ErrSyntax
| ErrRange
| ErrBase
| ErrBitSize.

(** Go [error] values.  [wrapError msg err] is
    [fmt.Errorf("<msg>: %w", err)]; [libError] stands for the errors that
    [net/url], [net/http], [encoding/json], go-querystring and the
    transport hand back. *)
Inductive error : Type :=
| errorString (msg : string)
| wrapError (msg : string) (err : error)
| NumError (Func Num : string) (Err : NumErrKind)
| libError (origin detail : string).

#[global] Instance NumErrKind_eq_dec : EqDecision NumErrKind.
Proof. solve_decision. Defined.

(** ** Run-time panics *)

Inductive panic : Type :=
| index_out_of_range (index : Z) (len : nat).

Inductive outcome (A : Type) : Type :=
| Returns (a : A)
| Panics (p : panic).
Arguments Returns {A} a.
Arguments Panics {A} p.

(** The value of a call that returns; [None] for a panic. *)
Definition returned {A} (o : outcome A) : option A :=
  match o with Returns a => Some a | Panics _ => None end.

(** ** Slices

    A Go slice is nil or holds elements; [make] never returns nil. *)
Inductive slice (A : Type) : Type :=
| nil_slice
| make_slice (elems : list A).
Arguments nil_slice {A}.
Arguments make_slice {A} elems.

Definition slice_elems {A} (s : slice A) : list A :=
  match s with nil_slice => [] | make_slice l => l end.

Definition is_nil_slice {A} (s : slice A) : bool :=
  match s with nil_slice => true | make_slice _ => false end.

(** [s[i]] for a Go [int] index. *)
Definition index {A} (l : list A) (i : Z) : option A :=
  if (0 <=? i)%Z then l !! Z.to_nat i else None.

(** ** Fixed-width integers *)

Definition two64 : Z := 18446744073709551616.
Definition two63 : Z := 9223372036854775808.
Definition maxUint64 : Z := two64 - 1.

(** [uint64(x)] *)
Definition to_uint64 (x : Z) : Z := (x mod two64)%Z.
(** [int64(x)] *)
Definition to_int64 (x : Z) : Z := ((x + two63) mod two64 - two63)%Z.

(** ** Package [strconv] *)

Module strconv.

(** [strconv.Itoa]: base-10 text of an integer. *)
Definition Itoa (i : Z) : string := pretty i.

(** [strconv.FormatBool] *)
Definition FormatBool (b : bool) : string :=
  if b then "true" else "false".

Definition byte_code (c : ascii) : Z := Z.of_N (N_of_ascii c).

(** [lower(c) = c | ('x' - 'X')] *)
Definition lower (c : Z) : Z := Z.lor c 32.

(** The digit value of one byte in the loop of [ParseUint]; [None] is the
    [default] branch of the switch. *)
Definition digit_val (c : Z) : option Z :=
  if ((48 <=? c) && (c <=? 57))%Z then Some (c - 48)%Z
  else if ((97 <=? lower c) && (lower c <=? 122))%Z
       then Some (lower c - 97 + 10)%Z
       else None.

(** The loop of [ParseUint] for an explicit base (no underscores). *)
Fixpoint ParseUint_loop (base cutoff maxVal : Z) (s : string) (n : Z)
  : Z * option NumErrKind :=
  match s with
  | EmptyString => (n, None)
  | String ch s' =>
      match digit_val (byte_code ch) with
      | None => (0%Z, Some ErrSyntax)
      | Some d =>
          if (base <=? d)%Z then (0%Z, Some ErrSyntax)
          else if (cutoff <=? n)%Z then (maxVal, Some ErrRange)
          else
            let n' := to_uint64 (n * base) in
            let n1 := to_uint64 (n' + d) in
            if ((n1 <? n') || (maxVal <? n1))%Z then (maxVal, Some ErrRange)
            else ParseUint_loop base cutoff maxVal s' n1
      end
  end.

(** [strconv.ParseUint(s, base, bitSize)] for an explicit base
    [2 <= base <= 36].  The prefix-driven [base == 0] path, which the
    client never takes, is reported as [ErrBase]. *)
Definition ParseUint (s : string) (base bitSize : Z) : Z * option NumErrKind :=
  match s with
  | EmptyString => (0%Z, Some ErrSyntax)
  | _ =>
      if negb ((2 <=? base) && (base <=? 36))%Z then (0%Z, Some ErrBase)
      else
        let bitSize := if (bitSize =? 0)%Z then 64%Z else bitSize in
        if ((bitSize <? 0) || (64 <? bitSize))%Z then (0%Z, Some ErrBitSize)
        else
          let cutoff := (maxUint64 / base + 1)%Z in
          let maxVal := (2 ^ bitSize - 1)%Z in
          ParseUint_loop base cutoff maxVal s 0
  end.

(** [strconv.ParseInt(s, base, bitSize)] *)
Definition ParseInt (s : string) (base bitSize : Z) : Z * option error :=
  match s with
  | EmptyString => (0%Z, Some (NumError "ParseInt" s ErrSyntax))
  | String c0 rest =>
      let s0 := s in
      let '(neg, s1) :=
        if decide (c0 = "+"%char) then (false, rest)
        else if decide (c0 = "-"%char) then (true, rest)
        else (false, s) in
      let '(un, err) := ParseUint s1 base bitSize in
      if match err with Some k => negb (bool_decide (k = ErrRange)) | None => false end
      then (0%Z, option_map (NumError "ParseInt" s0) err)
      else
        let bitSize := if (bitSize =? 0)%Z then 64%Z else bitSize in
        let cutoff := (2 ^ (bitSize - 1))%Z in
        if (negb neg && (cutoff <=? un)%Z)
        then ((cutoff - 1)%Z, Some (NumError "ParseInt" s0 ErrRange))
        else if (neg && (cutoff <? un)%Z)
        then ((- cutoff)%Z, Some (NumError "ParseInt" s0 ErrRange))
        else
          let n := to_int64 un in
          ((if neg then to_int64 (- n) else n), None)
  end.

(** *** What a decimal string denotes

    Independent of the parser: a non-empty run of the bytes ['0'..'9'],
    read most significant digit first. *)
Definition is_digit (c : ascii) : bool :=
  ((48 <=? byte_code c) && (byte_code c <=? 57))%Z.

Fixpoint digits_value (acc : Z) (s : string) : option Z :=
  match s with
  | EmptyString => Some acc
  | String c s' =>
      if is_digit c then digits_value (10 * acc + (byte_code c - 48))%Z s'
      else None
  end.

Definition decimal (s : string) : option Z :=
  match s with
  | EmptyString => None
  | _ => digits_value 0 s
  end.

End strconv.

(** ** Package [jupag]: types *)

(** [IndexedRoutesMap].  The two slice fields are only ranged over and
    indexed, which does not tell a nil slice from an empty one, so they are
    lists; a missing map key reads as the nil slice, the empty list. *)
Record IndexedRoutesMap : Type := {
  MintKeys : list string;
  IndexedRouteMap : gmap string (list Z);
}.

(** The first loop of [GetRoutesForMint]: [key] is the position of the head
    of [rest] within [r.MintKeys], [mintKeys] the variable of that name. *)
Fixpoint GetRoutesForMint_find (irm : gmap string (list Z)) (mint : string)
    (key : nat) (rest : list string) (mintKeys : list Z) : list Z :=
  match rest with
  | [] => mintKeys
  | val :: rest' =>
      GetRoutesForMint_find irm mint (S key) rest'
        (if decide (val = mint)
         then default [] (irm !! strconv.Itoa (Z.of_nat key))
         else mintKeys)
  end.

(** The second loop: [result = append(result, r.MintKeys[key])]. *)
Fixpoint GetRoutesForMint_collect (keys : list string) (mintKeys : list Z)
    (result : list string) : outcome (list string) :=
  match mintKeys with
  | [] => Returns result
  | key :: rest =>
      match index keys key with
      | Some s => GetRoutesForMint_collect keys rest (result ++ [s])
      | None => Panics (index_out_of_range key (length keys))
      end
  end.

Definition GetRoutesForMint (r : IndexedRoutesMap) (mint : string)
  : outcome (slice string) :=
  let mintKeys := GetRoutesForMint_find (IndexedRouteMap r) mint 0 (MintKeys r) [] in
  match GetRoutesForMint_collect (MintKeys r) mintKeys [] with
  | Returns result => Returns (make_slice result)
  | Panics p => Panics p
  end.

(** [i] is the last position of [mint] in [keys]. *)
Definition last_position (keys : list string) (mint : string) (i : nat) : Prop :=
  keys !! i = Some mint ∧ ∀ j, i < j → keys !! j ≠ Some mint.

(** [l] lists [keys[k]] for each [k] of [idxs], in order. *)
Definition routes_at (keys : list string) (idxs : list Z) (l : list string) : Prop :=
  Forall2 (λ k s, index keys k = Some s) idxs l.

(** [float64]: an IEEE-754 binary64 value, kept as its 64-bit pattern; the
    client never computes with one. *)
Definition float64 : Type := Z.

(** [json.RawMessage], a byte slice; [None] is nil. *)
Definition RawMessage : Type := option string.

(** A decoded [interface{}] field: the JSON text it was decoded from. *)
Definition json_any : Type := option string.

Record Response : Type := {
  Data : RawMessage;
  TimeTaken : float64;
  ContextSlot : Z;
}.

Record SwapInfo : Type := {
  swap_AmmKey : string;
  swap_FeeAmount : string;
  swap_FeeMint : string;
  swap_InAmount : string;
  swap_InputMint : string;
  swap_Label : string;
  swap_OutAmount : string;
  swap_OutputMint : string;
}.

Record Route : Type := {
  Percent : Z;
  RouteSwapInfo : SwapInfo;
}.

Record Price : Type := {
  price_ID : string;
  price_MintSymbol : string;
  price_VsToken : string;
  price_VsTokenSymbol : string;
  price_Price : float64;
}.

(** [PriceMap], a map; [None] is the nil map. *)
Definition PriceMap : Type := option (gmap string Price).

Record QuoteParams : Type := {
  qp_InputMint : string;
  qp_OutputMint : string;
  qp_Amount : Z;
  qp_SwapMode : string;
  qp_DynamicSlippage : bool;
  qp_OnlyDirectRoutes : bool;
  qp_AsLegacyTransaction : bool;
  qp_MinimizeSlippage : bool;
}.

Record QuoteResponse : Type := {
  qr_ContextSlot : Z;
  qr_InAmount : string;
  qr_InputMint : string;
  qr_OtherAmountThreshold : string;
  qr_OutAmount : string;
  qr_OutputMint : string;
  qr_PlatformFee : json_any;
  qr_PriceImpactPct : string;
  qr_RoutePlan : Route;
  qr_ScoreReport : json_any;
  qr_SlippageBps : Z;
  qr_SwapMode : string;
  qr_SwapType : string;
  qr_TimeTaken : float64;
}.

Record SwapParams : Type := {
  sp_Route : Route;
  sp_UserPublicKey : string;
  sp_WrapUnwrapSol : option bool;
  sp_FeeAccount : string;
  sp_AsLegacyTransaction : option bool;
  sp_ComputeUnitPriceMicroLamports : option Z;
  sp_DestinationWallet : string;
}.

Record SwapResponse : Type := {
  SwapTransaction : string;
}.

Record PriceParams : Type := {
  pp_IDs : string;
  pp_VsToken : string;
  pp_VsAmount : float64;
}.

Record BestSwapParams : Type := {
  bs_UserPublicKey : string;
  bs_DestinationPublicKey : string;
  bs_FeeAmount : Z;
  bs_FeeAccount : string;
  bs_InputMint : string;
  bs_OutputMint : string;
  bs_Amount : Z;
  bs_SwapMode : string;
}.

Record ExchangeRateParams : Type := {
  er_InputMint : string;
  er_OutputMint : string;
  er_Amount : Z;
  er_SwapMode : string;
}.

Record Rate : Type := {
  rate_InputMint : string;
  rate_OutputMint : string;
  rate_InAmount : Z;
  rate_OutAmount : Z;
}.

Definition SwapModeExactIn : string := "ExactIn".
Definition SwapModeExactOut : string := "ExactOut".

(** Zero values of the structs the decoders start from. *)
Definition zero_Response : Response :=
  {| Data := None; TimeTaken := 0%Z; ContextSlot := 0%Z |}.
Definition zero_SwapInfo : SwapInfo :=
  {| swap_AmmKey := ""; swap_FeeAmount := ""; swap_FeeMint := "";
     swap_InAmount := ""; swap_InputMint := ""; swap_Label := "";
     swap_OutAmount := ""; swap_OutputMint := "" |}.
Definition zero_Route : Route :=
  {| Percent := 0%Z; RouteSwapInfo := zero_SwapInfo |}.
Definition zero_QuoteResponse : QuoteResponse :=
  {| qr_ContextSlot := 0%Z; qr_InAmount := ""; qr_InputMint := "";
     qr_OtherAmountThreshold := ""; qr_OutAmount := ""; qr_OutputMint := "";
     qr_PlatformFee := None; qr_PriceImpactPct := "";
     qr_RoutePlan := zero_Route; qr_ScoreReport := None;
     qr_SlippageBps := 0%Z; qr_SwapMode := ""; qr_SwapType := "";
     qr_TimeTaken := 0%Z |}.
Definition zero_SwapResponse : SwapResponse := {| SwapTransaction := "" |}.
Definition zero_IndexedRoutesMap : IndexedRoutesMap :=
  {| MintKeys := []; IndexedRouteMap := ∅ |}.

(** ** Package [time] *)

Module time.
(** [time.Duration]: nanoseconds, an [int64]. *)
Definition Duration : Type := Z.
Definition Nanosecond : Duration := 1%Z.
Definition Millisecond : Duration := 1000000%Z.
Definition Second : Duration := 1000000000%Z.
End time.

(** ** The transport: heimdall's [httpclient]

    Only the configuration the constructor of the client sets is modelled:
    the options of [httpclient.NewClient] applied in order to heimdall's
    defaults. *)
Module heimdall.

(** [heimdall.NewConstantBackoff(backoffInterval, maximumJitterInterval)]:
    both intervals are kept in milliseconds. *)
Record Backoff : Type := {
  backoffInterval : Z;
  maximumJitterInterval : Z;
}.

Definition NewConstantBackoff (backoff maxJitter : time.Duration) : Backoff :=
  {| backoffInterval := (backoff / time.Millisecond)%Z;
     maximumJitterInterval :=
       ((if (maxJitter <? 0)%Z then 0%Z else maxJitter) / time.Millisecond)%Z |}.

Inductive Retriable : Type :=
| NoRetrier
| Retrier (backoff : Backoff).

Definition NewRetrier (b : Backoff) : Retriable := Retrier b.

End heimdall.

Module httpclient.

Record Client : Type := {
  timeout : time.Duration;
  retryCount : Z;
  retrier : heimdall.Retriable;
}.

Inductive Option : Type :=
| WithHTTPTimeout (timeout : time.Duration)
| WithRetryCount (retryCount : Z)
| WithRetrier (retrier : heimdall.Retriable).

Definition defaultRetryCount : Z := 0%Z.
Definition defaultHTTPTimeout : time.Duration := (30 * time.Second)%Z.

Definition apply (c : Client) (o : Option) : Client :=
  match o with
  | WithHTTPTimeout t =>
      {| timeout := t; retryCount := retryCount c; retrier := retrier c |}
  | WithRetryCount n =>
      {| timeout := timeout c; retryCount := n; retrier := retrier c |}
  | WithRetrier r =>
      {| timeout := timeout c; retryCount := retryCount c; retrier := r |}
  end.

Definition NewClient (opts : list Option) : Client :=
  fold_left apply opts
    {| timeout := defaultHTTPTimeout;
       retryCount := defaultRetryCount;
       retrier := heimdall.NoRetrier |}.

End httpclient.

(** ** [net/url] and [net/http] values *)

Record URL : Type := {
  Scheme : string;
  Opaque : string;
  User : option (string * option string);
  Host : string;
  Path : string;
  RawPath : string;
  OmitHost : bool;
  ForceQuery : bool;
  RawQuery : string;
  Fragment : string;
  RawFragment : string;
}.

(** [u.RawQuery = q] *)
Definition set_RawQuery (q : string) (u : URL) : URL :=
  {| Scheme := Scheme u; Opaque := Opaque u; User := User u; Host := Host u;
     Path := Path u; RawPath := RawPath u; OmitHost := OmitHost u;
     ForceQuery := ForceQuery u; RawQuery := q; Fragment := Fragment u;
     RawFragment := RawFragment u |}.

(** [url.Values] *)
Abbreviation url_Values := (gmap string (list string)).

Record Request : Type := {
  Method : string;
  RequestURL : string;
  Header : gmap string (list string);
  RequestBody : option string;
}.

(** [req.Header.Set(key, value)] for a key in canonical form. *)
Definition Header_Set (key value : string) (req : Request) : Request :=
  {| Method := Method req; RequestURL := RequestURL req;
     Header := <[key := [value]]> (Header req);
     RequestBody := RequestBody req |}.

Record HTTPResponse : Type := {
  StatusCode : Z;
  Body : string;
}.

Definition StatusOK : Z := 200%Z.
Definition MethodGet : string := "GET".
Definition MethodPost : string := "POST".

(** The result of a library call that hands back either a value or an
    error. *)
Inductive result (A : Type) : Type :=
| Ok (a : A)
| Err (e : error).
Arguments Ok {A} a.
Arguments Err {A} e.

(** ** The client struct *)

Record JupagImpl : Type := {
  jupagImpl : httpclient.Client;
  apiUrl : string;
  quotePath : string;
  swapPath : string;
  pricePath : string;
  routesMapPath : string;
}.

(** ** The run-time environment of the client

    [Struct] is the type of the parameter structs a revision of the client
    passes as [any]; [QuoteT] is its [QuoteResponse]. *)

(** A value of type [any] as the client passes it to [request]. *)
Inductive any (Struct : Type) : Type :=
| any_nil
| any_Values (uv : url_Values)
| any_struct (s : Struct).
Arguments any_nil {Struct}.
Arguments any_Values {Struct} uv.
Arguments any_struct {Struct} s.

Definition any_is_nil {Struct} (v : any Struct) : bool :=
  match v with any_nil => true | _ => false end.

(** What a [json] decoder is asked to fill in. *)
Inductive Target : Type :=
| TResponse
| TQuoteResponse
| TSwapResponse
| TPriceMap
| TIndexedRoutesMap.

(** The steps that cross the boundary of the process or turn a value into
    its wire form, in the order they happen. *)
Inductive Event (Struct : Type) : Type :=
| EvEncode (uv : url_Values)
| EvMarshal (body : any Struct)
| EvDo (req : Request)
| EvDecode (target : Target) (body : string)
| EvUnmarshal (target : Target) (data : RawMessage).
Arguments EvEncode {Struct} uv.
Arguments EvMarshal {Struct} body.
Arguments EvDo {Struct} req.
Arguments EvDecode {Struct} target body.
Arguments EvUnmarshal {Struct} target data.

Definition is_EvDo {Struct} (e : Event Struct) : bool :=
  match e with EvDo _ => true | _ => false end.
Definition is_EvEncode {Struct} (e : Event Struct) : bool :=
  match e with EvEncode _ => true | _ => false end.
Definition is_EvMarshal {Struct} (e : Event Struct) : bool :=
  match e with EvMarshal _ => true | _ => false end.
Definition is_EvDecode {Struct} (e : Event Struct) : bool :=
  match e with EvDecode _ _ | EvUnmarshal _ _ => true | _ => false end.
Definition is_envelope_decode {Struct} (e : Event Struct) : bool :=
  match e with EvDecode TResponse _ => true | _ => false end.

(** The libraries and the remote service.  [httpclient_Do] answers a
    request given the transport and everything that happened before. *)
Record Env (Struct QuoteT : Type) : Type := {
  url_Parse : string → result URL;
  URL_String : URL → string;
  Values_Encode : url_Values → string;
  query_Values : Struct → result url_Values;
  json_Marshal : any Struct → result string;
  http_NewRequest_check : string → string → option error;
  httpclient_Do :
    httpclient.Client → list (Event Struct) → Request → result HTTPResponse;
  decode_Response : string → Response * option error;
  decode_SwapResponse : string → SwapResponse * option error;
  decode_IndexedRoutesMap : string → IndexedRoutesMap * option error;
  unmarshal_QuoteResponse : RawMessage → QuoteT * option error;
  unmarshal_PriceMap : RawMessage → PriceMap * option error;
}.
Arguments url_Parse {Struct QuoteT} _ _.
Arguments URL_String {Struct QuoteT} _ _.
Arguments Values_Encode {Struct QuoteT} _ _.
Arguments query_Values {Struct QuoteT} _ _.
Arguments json_Marshal {Struct QuoteT} _ _.
Arguments http_NewRequest_check {Struct QuoteT} _ _ _.
Arguments httpclient_Do {Struct QuoteT} _ _ _ _.
Arguments decode_Response {Struct QuoteT} _ _.
Arguments decode_SwapResponse {Struct QuoteT} _ _.
Arguments decode_IndexedRoutesMap {Struct QuoteT} _ _.
Arguments unmarshal_QuoteResponse {Struct QuoteT} _ _.
Arguments unmarshal_PriceMap {Struct QuoteT} _ _.

(** The store a method runs in: the struct its receiver points to and the
    events so far. *)
Record Store (Struct : Type) : Type := {
  client : JupagImpl;
  trace : list (Event Struct);
}.
Arguments client {Struct} _.
Arguments trace {Struct} _.

Definition emit {Struct} (e : Event Struct) (σ : Store Struct) : Store Struct :=
  {| client := client σ; trace := trace σ ++ [e] |}.

(** Computations over the store. *)
Definition M (Struct : Type) (A : Type) : Type :=
  Store Struct → A * Store Struct.

Definition ret {Struct A} (a : A) : M Struct A := λ σ, (a, σ).

Definition bind {Struct A B} (m : M Struct A) (k : A → M Struct B)
  : M Struct B :=
  λ σ, let '(a, σ') := m σ in k a σ'.

Declare Scope go_scope.
Delimit Scope go_scope with go.
Notation "'let*' x ':=' m 'in' k" := (bind m (λ x, k))
  (at level 10, x binder, m at level 200, k at level 200) : go_scope.

Section Runtime.
Context {Struct QuoteT : Type} (env : Env Struct QuoteT).

Local Open Scope go_scope.

(** [c], the receiver, dereferenced. *)
Definition self : M Struct JupagImpl := λ σ, (client σ, σ).

Definition log (e : Event Struct) : M Struct unit := λ σ, (tt, emit e σ).

(** [uv.Encode()] *)
Definition Encode (uv : url_Values) : M Struct string :=
  let* _ := log (EvEncode uv) in
  ret (Values_Encode env uv).

(** [json.Marshal(body)] *)
Definition Marshal (body : any Struct) : M Struct (result string) :=
  let* _ := log (EvMarshal body) in
  ret (json_Marshal env body).

(** [http.NewRequest(method, url, bytes.NewBuffer(data))] *)
Definition NewRequest (method url : string) (data : option string)
  : result Request :=
  match http_NewRequest_check env method url with
  | Some e => Err e
  | None => Ok {| Method := method; RequestURL := url; Header := ∅;
                  RequestBody := data |}
  end.

(** [cl.Do(req)] *)
Definition Do (cl : httpclient.Client) (req : Request)
  : M Struct (result HTTPResponse) :=
  λ σ, (httpclient_Do env cl (trace σ) req, emit (EvDo req) σ).

(** [json.NewDecoder(resp.Body).Decode(&x)] for each target type. *)
Definition DecodeResponse (body : string) : M Struct (Response * option error) :=
  let* _ := log (EvDecode TResponse body) in
  ret (decode_Response env body).
Definition DecodeSwapResponse (body : string)
  : M Struct (SwapResponse * option error) :=
  let* _ := log (EvDecode TSwapResponse body) in
  ret (decode_SwapResponse env body).
Definition DecodeIndexedRoutesMap (body : string)
  : M Struct (IndexedRoutesMap * option error) :=
  let* _ := log (EvDecode TIndexedRoutesMap body) in
  ret (decode_IndexedRoutesMap env body).

(** [json.Unmarshal(data, &x)] *)
Definition UnmarshalQuoteResponse (data : RawMessage)
  : M Struct (QuoteT * option error) :=
  let* _ := log (EvUnmarshal TQuoteResponse data) in
  ret (unmarshal_QuoteResponse env data).
Definition UnmarshalPriceMap (data : RawMessage)
  : M Struct (PriceMap * option error) :=
  let* _ := log (EvUnmarshal TPriceMap data) in
  ret (unmarshal_PriceMap env data).

End Runtime.

(** ** Package [utils] *)

Module utils.
Section utils.
Context {Struct QuoteT : Type} (env : Env Struct QuoteT).

(** [StructToUrlValues]; the [url.Values] returned with an error is
    nil, the empty map. *)
Definition StructToUrlValues (v : any Struct) : url_Values * option error :=
  match v with
  | any_nil => (∅, Some (errorString "struct is nil"))
  | any_Values uv => (uv, None)
  | any_struct s =>
      match query_Values env s with
      | Err err =>
          (∅, Some (wrapError "failed to convert struct to url values" err))
      | Ok uv => (uv, None)
      end
  end.

(** [Pointer] *)
Definition Pointer {T} (v : T) : option T := Some v.
End utils.
End utils.

(** [fmt.Sprintf("%s%s", a, b)] *)
Definition Sprintf_ss (a b : string) : string := a +:+ b.

(** [fmt.Errorf("unexpected status code: %d", code)] *)
Definition unexpected_status (code : Z) : error :=
  errorString ("unexpected status code: " +:+ strconv.Itoa code).

(** ** The client of [src/unnamed/part_000] *)

Module Part000.

(** The parameter structs this revision passes as [any]. *)
Inductive Struct : Type :=
| S_QuoteParams (p : QuoteParams)
| S_PriceParams (p : PriceParams)
| S_SwapParams (p : SwapParams).

Definition NewJupag : JupagImpl :=
  let timeout := (3000 * time.Millisecond)%Z in
  let cl := httpclient.NewClient
    [ httpclient.WithHTTPTimeout timeout;
      httpclient.WithRetryCount 1;
      httpclient.WithRetrier
        (heimdall.NewRetrier
           (heimdall.NewConstantBackoff (500 * time.Millisecond)%Z
                                        (1000 * time.Millisecond)%Z)) ] in
  {| jupagImpl := cl;
     apiUrl := "https://quote-proxy.jup.ag";
     quotePath := "/quote";
     swapPath := "/swap";
     pricePath := "/price";
     routesMapPath := "/indexed-route-map" |}.

Section methods.
Context (env : Env Struct QuoteResponse).
Local Open Scope go_scope.

Abbreviation Go := (M Struct).

Definition request (method endpoint : string) (params body : any Struct)
  : Go (result HTTPResponse) :=
  match url_Parse env endpoint with
  | Err err => ret (Err err)
  | Ok u =>
  match utils.StructToUrlValues env params with
  | (_, Some err) =>
      ret (Err (wrapError "failed to convert params to url values" err))
  | (uv, None) =>
  let* q := Encode env uv in
  let u := set_RawQuery q u in
  let completeUrl := URL_String env u in
  let* marshalled := Marshal env body in
  match negb (any_is_nil body), marshalled with
  | true, Err err => ret (Err err)
  | _, _ =>
  let data := match marshalled with Ok d => Some d | Err _ => None end in
  match NewRequest env method completeUrl data with
  | Err err => ret (Err err)
  | Ok req =>
  let req := Header_Set "Cache-Control" "no-cache" req in
  let* c := self in
  Do env (jupagImpl c) req
  end
  end
  end
  end.

(** [parseResponse]; closing the body is not an event of the model. *)
Definition parseResponse (resp : HTTPResponse)
  : Go (RawMessage * option error) :=
  if negb (StatusCode resp =? StatusOK)%Z
  then ret (None, Some (unexpected_status (StatusCode resp)))
  else
    let* '(response, err) := DecodeResponse env (Body resp) in
    match err with
    | Some err => ret (None, Some (wrapError "failed to decode response" err))
    | None => ret (Data response, None)
    end.

Definition Quote (params : QuoteParams) : Go (QuoteResponse * option error) :=
  let* c := self in
  let* r := request MethodGet (Sprintf_ss (apiUrl c) (quotePath c))
                    (any_struct (S_QuoteParams params)) any_nil in
  match r with
  | Err err => ret (zero_QuoteResponse, Some err)
  | Ok resp =>
      let* '(data, err) := parseResponse resp in
      match err with
      | Some err =>
          ret (zero_QuoteResponse,
               Some (wrapError "failed to parse quote response" err))
      | None =>
          let* '(quote, err) := UnmarshalQuoteResponse env data in
          match err with
          | Some err =>
              ret (quote, Some (wrapError "failed to parse quote response" err))
          | None => ret (quote, None)
          end
      end
  end.

Definition Swap (params : SwapParams) : Go (string * option error) :=
  let* c := self in
  let* r := request MethodPost (Sprintf_ss (apiUrl c) (swapPath c))
                    any_nil (any_struct (S_SwapParams params)) in
  match r with
  | Err err => ret ("", Some (wrapError "failed to make swap request" err))
  | Ok resp =>
      if negb (StatusCode resp =? StatusOK)%Z
      then ret ("", Some (unexpected_status (StatusCode resp)))
      else
        let* '(response, err) := DecodeSwapResponse env (Body resp) in
        match err with
        | Some err =>
            ret ("", Some (wrapError "failed to decode response" err))
        | None => ret (SwapTransaction response, None)
        end
  end.

Definition Price (params : PriceParams) : Go (PriceMap * option error) :=
  let* c := self in
  let* r := request MethodGet (Sprintf_ss (apiUrl c) (pricePath c))
                    (any_struct (S_PriceParams params)) any_nil in
  match r with
  | Err err => ret (None, Some (wrapError "failed to make price request" err))
  | Ok resp =>
      let* '(data, err) := parseResponse resp in
      match err with
      | Some err =>
          ret (None, Some (wrapError "failed to parse price response" err))
      | None =>
          let* '(price, err) := UnmarshalPriceMap env data in
          match err with
          | Some err =>
              ret (None, Some (wrapError "failed to parse price response" err))
          | None => ret (price, None)
          end
      end
  end.

Definition RoutesMap (onlyDirectRoutes : bool)
  : Go (IndexedRoutesMap * option error) :=
  let* c := self in
  let* r := request MethodGet (Sprintf_ss (apiUrl c) (routesMapPath c))
              (any_Values
                 {[ "onlyDirectRoutes" := [strconv.FormatBool onlyDirectRoutes] ]})
              any_nil in
  match r with
  | Err err =>
      ret (zero_IndexedRoutesMap,
           Some (wrapError "failed to make routes map request" err))
  | Ok resp =>
      let* '(routesMap, err) := DecodeIndexedRoutesMap env (Body resp) in
      match err with
      | Some err =>
          ret (zero_IndexedRoutesMap,
               Some (wrapError "failed to parse routes map response" err))
      | None => ret (routesMap, None)
      end
  end.

End methods.
End Part000.

(** ** The client of [src/unnamed/part_001]

    This revision compiles against declarations of [Route], [QuoteParams],
    [SwapParams], [QuoteResponse] and [GetBestRoute] that are not among the
    sources.  [Route] is a parameter with the two fields [ExchangeRate]
    reads, [GetBestRoute] is a parameter, and the two parameter structs
    have the fields the composite literals of [BestSwap] and
    [ExchangeRate] set. *)

Module Part001.

(** Modelled from the spec: the declaration of [QuoteParams] used by this
    revision is missing; these are the fields its code sets. *)
Record QuoteParams : Type := {
  InputMint : string;
  OutputMint : string;
  Amount : Z;
  FeeBps : Z;
  SwapMode : string;
  OnlyDirectRoutes : bool;
}.

(** Modelled from the spec: the declaration of [SwapParams] used by this
    revision is missing; these are the fields its code sets. *)
Record SwapParams (Route : Type) : Type := {
  SwapRoute : Route;
  UserPublicKey : string;
  DestinationWallet : string;
  FeeAccount : string;
  WrapUnwrapSol : option bool;
  AsLegacyTransaction : option bool;
}.
Arguments SwapRoute {Route} _.
Arguments UserPublicKey {Route} _.
Arguments DestinationWallet {Route} _.
Arguments FeeAccount {Route} _.
Arguments WrapUnwrapSol {Route} _.
Arguments AsLegacyTransaction {Route} _.

(** Modelled from the spec: [QuoteResponse] of this revision, "a list
    returned by the remote server"; a slice of routes. *)
Definition QuoteResponse (Route : Type) : Type := slice Route.

Inductive Struct (Route : Type) : Type :=
| S_QuoteParams (p : QuoteParams)
| S_PriceParams (p : PriceParams)
| S_SwapParams (p : SwapParams Route).
Arguments S_QuoteParams {Route} p.
Arguments S_PriceParams {Route} p.
Arguments S_SwapParams {Route} p.

Definition NewJupag : JupagImpl :=
  let timeout := (500 * time.Millisecond)%Z in
  let cl := httpclient.NewClient
    [ httpclient.WithHTTPTimeout timeout;
      httpclient.WithRetryCount 1;
      httpclient.WithRetrier
        (heimdall.NewRetrier
           (heimdall.NewConstantBackoff (500 * time.Millisecond)%Z
                                        (1000 * time.Millisecond)%Z)) ] in
  {| jupagImpl := cl;
     apiUrl := "https://price.jup.ag/v6";
     quotePath := "/quote";
     swapPath := "/swap";
     pricePath := "/price";
     routesMapPath := "/indexed-route-map" |}.

Section methods.
Context {Route : Type}.
Context (Route_InAmount Route_OutAmount : Route → string).
Context (GetBestRoute : QuoteResponse Route → Route * option error).
Context (env : Env (Struct Route) (QuoteResponse Route)).
Local Open Scope go_scope.

Abbreviation Go := (M (Struct Route)).

Definition request (method endpoint : string) (params body : any (Struct Route))
  : Go (result HTTPResponse) :=
  match url_Parse env endpoint with
  | Err err => ret (Err err)
  | Ok u =>
  match utils.StructToUrlValues env params with
  | (_, Some err) =>
      ret (Err (wrapError "failed to convert params to url values" err))
  | (uv, None) =>
  let* q := Encode env uv in
  let u := set_RawQuery q u in
  let completeUrl := URL_String env u in
  let* marshalled := Marshal env body in
  match negb (any_is_nil body), marshalled with
  | true, Err err => ret (Err err)
  | _, _ =>
  let data := match marshalled with Ok d => Some d | Err _ => None end in
  match NewRequest env method completeUrl data with
  | Err err => ret (Err err)
  | Ok req =>
  let* c := self in
  Do env (jupagImpl c) req
  end
  end
  end
  end.

(** [parseResponse]; closing the body is not an event of the model. *)
Definition parseResponse (resp : HTTPResponse)
  : Go (RawMessage * option error) :=
  if negb (StatusCode resp =? StatusOK)%Z
  then ret (None, Some (unexpected_status (StatusCode resp)))
  else
    let* '(response, err) := DecodeResponse env (Body resp) in
    match err with
    | Some err => ret (None, Some (wrapError "failed to decode response" err))
    | None => ret (Data response, None)
    end.

Definition Quote (params : QuoteParams)
  : Go (QuoteResponse Route * option error) :=
  let* c := self in
  let* r := request MethodGet (Sprintf_ss (apiUrl c) (quotePath c))
                    (any_struct (S_QuoteParams params)) any_nil in
  match r with
  | Err err =>
      ret (nil_slice, Some (wrapError "failed to make quote request" err))
  | Ok resp =>
      let* '(data, err) := parseResponse resp in
      match err with
      | Some err =>
          ret (nil_slice, Some (wrapError "failed to parse quote response" err))
      | None =>
          let* '(quotes, err) := UnmarshalQuoteResponse env data in
          match err with
          | Some err =>
              ret (nil_slice,
                   Some (wrapError "failed to parse quote response" err))
          | None =>
              if (length (slice_elems quotes) =? 0)%nat
              then ret (nil_slice, Some (errorString "no quotes returned"))
              else ret (quotes, None)
          end
      end
  end.

Definition Swap (params : SwapParams Route) : Go (string * option error) :=
  let* c := self in
  let* r := request MethodPost (Sprintf_ss (apiUrl c) (swapPath c))
                    any_nil (any_struct (S_SwapParams params)) in
  match r with
  | Err err => ret ("", Some (wrapError "failed to make swap request" err))
  | Ok resp =>
      if negb (StatusCode resp =? StatusOK)%Z
      then ret ("", Some (unexpected_status (StatusCode resp)))
      else
        let* '(response, err) := DecodeSwapResponse env (Body resp) in
        match err with
        | Some err =>
            ret ("", Some (wrapError "failed to decode response" err))
        | None => ret (SwapTransaction response, None)
        end
  end.

Definition Price (params : PriceParams) : Go (PriceMap * option error) :=
  let* c := self in
  let* r := request MethodGet (Sprintf_ss (apiUrl c) (pricePath c))
                    (any_struct (S_PriceParams params)) any_nil in
  match r with
  | Err err => ret (None, Some (wrapError "failed to make price request" err))
  | Ok resp =>
      let* '(data, err) := parseResponse resp in
      match err with
      | Some err =>
          ret (None, Some (wrapError "failed to parse price response" err))
      | None =>
          let* '(price, err) := UnmarshalPriceMap env data in
          match err with
          | Some err =>
              ret (None, Some (wrapError "failed to parse price response" err))
          | None => ret (price, None)
          end
      end
  end.

Definition RoutesMap (onlyDirectRoutes : bool)
  : Go (IndexedRoutesMap * option error) :=
  let* c := self in
  let* r := request MethodGet (Sprintf_ss (apiUrl c) (routesMapPath c))
              (any_Values
                 {[ "onlyDirectRoutes" := [strconv.FormatBool onlyDirectRoutes] ]})
              any_nil in
  match r with
  | Err err =>
      ret (zero_IndexedRoutesMap,
           Some (wrapError "failed to make routes map request" err))
  | Ok resp =>
      let* '(routesMap, err) := DecodeIndexedRoutesMap env (Body resp) in
      match err with
      | Some err =>
          ret (zero_IndexedRoutesMap,
               Some (wrapError "failed to parse routes map response" err))
      | None => ret (routesMap, None)
      end
  end.

Definition BestSwap (params : BestSwapParams) : Go (string * option error) :=
  let SwapMode' :=
    if decide (bs_SwapMode params = "") then SwapModeExactIn
    else bs_SwapMode params in
  let* '(routes, err) :=
    Quote {| InputMint := bs_InputMint params;
             OutputMint := bs_OutputMint params;
             Amount := bs_Amount params;
             FeeBps := bs_FeeAmount params;
             SwapMode := SwapMode';
             OnlyDirectRoutes := false |} in
  match err with
  | Some err => ret ("", Some err)
  | None =>
      match GetBestRoute routes with
      | (_, Some err) => ret ("", Some err)
      | (route, None) =>
          let* '(swap, err) :=
            Swap {| SwapRoute := route;
                    UserPublicKey := bs_UserPublicKey params;
                    DestinationWallet := bs_DestinationPublicKey params;
                    FeeAccount := bs_FeeAccount params;
                    WrapUnwrapSol := utils.Pointer true;
                    AsLegacyTransaction := utils.Pointer true |} in
          match err with
          | Some err => ret ("", Some err)
          | None => ret (swap, None)
          end
      end
  end.

Definition ExchangeRate (params : ExchangeRateParams)
  : Go (Rate * option error) :=
  let result := {| rate_InputMint := er_InputMint params;
                   rate_OutputMint := er_OutputMint params;
                   rate_InAmount := 0;
                   rate_OutAmount := 0 |} in
  let* '(routes, err) :=
    Quote {| InputMint := er_InputMint params;
             OutputMint := er_OutputMint params;
             Amount := er_Amount params;
             FeeBps := 0;
             SwapMode := er_SwapMode params;
             OnlyDirectRoutes := false |} in
  match err with
  | Some err => ret (result, Some err)
  | None =>
      match GetBestRoute routes with
      | (_, Some err) => ret (result, Some err)
      | (route, None) =>
          match strconv.ParseInt (Route_InAmount route) 10 64 with
          | (_, Some err) =>
              ret (result, Some (wrapError "failed to parse in amount" err))
          | (inAmount, None) =>
              match strconv.ParseInt (Route_OutAmount route) 10 64 with
              | (_, Some err) =>
                  ret (result,
                       Some (wrapError "failed to parse out amount" err))
              | (outAmount, None) =>
                  ret ({| rate_InputMint := rate_InputMint result;
                          rate_OutputMint := rate_OutputMint result;
                          rate_InAmount := to_uint64 inAmount;
                          rate_OutAmount := to_uint64 outAmount |}, None)
              end
          end
      end
  end.

End methods.
End Part001.

(** ** [GetBestRoute] *)

Section GetBestRoute.
Context {Route : Type}.
(** How two routes compare: [better r best] holds when [r] is to replace
    the best route so far.  The error for an empty list and the route
    returned with it are parameters too. *)
Context (better : Route → Route → bool).
Context (no_route : Route) (no_routes_error : error).

(** Modelled from the spec: the scan of [GetBestRoute], missing from the
    sources, "a linear scan to pick a best route from a list returned by
    the remote server".  It walks the list once, from left to right, and
    keeps the best route so far: a route replaces it when it is better. *)
Fixpoint GetBestRoute_scan (best : Route) (rest : list Route) : Route :=
  match rest with
  | [] => best
  | r :: rest' => GetBestRoute_scan (if better r best then r else best) rest'
  end.

(** Modelled from the spec: [GetBestRoute], the method of [QuoteResponse]
    that [BestSwap] and [ExchangeRate] call, is missing from the sources;
    it fails on an empty list and otherwise scans it, starting with its
    first route. *)
Definition GetBestRoute (q : slice Route) : Route * option error :=
  match slice_elems q with
  | [] => (no_route, Some no_routes_error)
  | r :: rest => (GetBestRoute_scan r rest, None)
  end.
End GetBestRoute.

(** ** Sequences of calls and what a method does with a response *)

(** The events a run added to the trace. *)
Definition events_since {Struct} (σ σ' : Store Struct) : list (Event Struct) :=
  drop (length (trace σ)) (trace σ').

(** A computation leaves the struct of its receiver as it found it. *)
Definition preserves_client {Struct A} (m : M Struct A) : Prop :=
  ∀ σ, client (snd (m σ)) = client σ.

(** A method that got the response [resp] from its request decodes its
    result through the envelope: it unmarshals the [Data] field of the
    envelope decoded from the body of [resp]. *)
Definition unmarshals_Data {Struct QuoteT A}
    (env : Env Struct QuoteT) (target : Target)
    (request_step : M Struct (result HTTPResponse)) (method : M Struct A) : Prop :=
  ∀ σ resp σ1 response,
    request_step σ = (Ok resp, σ1) →
    StatusCode resp = StatusOK →
    decode_Response env (Body resp) = (response, None) →
    EvUnmarshal target (Data response) ∈ events_since σ1 (snd (method σ)).

Module Calls000.
Import Part000.

Inductive Call : Type :=
| CallQuote (params : QuoteParams)
| CallSwap (params : SwapParams)
| CallPrice (params : PriceParams)
| CallRoutesMap (onlyDirectRoutes : bool).

Section calls.
Context (env : Env Struct QuoteResponse).
Local Open Scope go_scope.

(** One call, its results dropped. *)
Definition exec (c : Call) : M Struct unit :=
  match c with
  | CallQuote p => let* _ := Quote env p in ret tt
  | CallSwap p => let* _ := Swap env p in ret tt
  | CallPrice p => let* _ := Price env p in ret tt
  | CallRoutesMap b => let* _ := RoutesMap env b in ret tt
  end.

Fixpoint exec_all (cs : list Call) : M Struct unit :=
  match cs with
  | [] => ret tt
  | c :: cs' => let* _ := exec c in exec_all cs'
  end.

(** The request each method starts with. *)
Definition request_of (c : Call) : M Struct (result HTTPResponse) :=
  let* cl := self in
  match c with
  | CallQuote p =>
      request env MethodGet (Sprintf_ss (apiUrl cl) (quotePath cl))
              (any_struct (S_QuoteParams p)) any_nil
  | CallSwap p =>
      request env MethodPost (Sprintf_ss (apiUrl cl) (swapPath cl))
              any_nil (any_struct (S_SwapParams p))
  | CallPrice p =>
      request env MethodGet (Sprintf_ss (apiUrl cl) (pricePath cl))
              (any_struct (S_PriceParams p)) any_nil
  | CallRoutesMap b =>
      request env MethodGet (Sprintf_ss (apiUrl cl) (routesMapPath cl))
              (any_Values {[ "onlyDirectRoutes" := [strconv.FormatBool b] ]})
              any_nil
  end.

(** The type each method decodes into. *)
Definition target_of (c : Call) : Target :=
  match c with
  | CallQuote _ => TQuoteResponse
  | CallSwap _ => TSwapResponse
  | CallPrice _ => TPriceMap
  | CallRoutesMap _ => TIndexedRoutesMap
  end.
End calls.
End Calls000.

Module Calls001.
Import Part001.

Inductive Call (Route : Type) : Type :=
| CallQuote (params : QuoteParams)
| CallSwap (params : SwapParams Route)
| CallPrice (params : PriceParams)
| CallRoutesMap (onlyDirectRoutes : bool)
| CallBestSwap (params : BestSwapParams)
| CallExchangeRate (params : ExchangeRateParams).
Arguments CallQuote {Route} params.
Arguments CallSwap {Route} params.
Arguments CallPrice {Route} params.
Arguments CallRoutesMap {Route} onlyDirectRoutes.
Arguments CallBestSwap {Route} params.
Arguments CallExchangeRate {Route} params.

Section calls.
Context {Route : Type}.
Context (Route_InAmount Route_OutAmount : Route → string).
Context (GetBestRoute : QuoteResponse Route → Route * option error).
Context (env : Env (Struct Route) (QuoteResponse Route)).
Local Open Scope go_scope.

Definition exec (c : Call Route) : M (Struct Route) unit :=
  match c with
  | CallQuote p => let* _ := Quote env p in ret tt
  | CallSwap p => let* _ := Swap env p in ret tt
  | CallPrice p => let* _ := Price env p in ret tt
  | CallRoutesMap b => let* _ := RoutesMap env b in ret tt
  | CallBestSwap p => let* _ := BestSwap GetBestRoute env p in ret tt
  | CallExchangeRate p =>
      let* _ := ExchangeRate Route_InAmount Route_OutAmount GetBestRoute env p in
      ret tt
  end.

Fixpoint exec_all (cs : list (Call Route)) : M (Struct Route) unit :=
  match cs with
  | [] => ret tt
  | c :: cs' => let* _ := exec c in exec_all cs'
  end.
End calls.
End Calls001.

(** ** The sign of the amounts

    The wrap-around of a negative amount read without a bound on its
    magnitude: every amount string that is a minus sign and the decimal
    digits of [n] makes [ExchangeRate] succeed with the amount [2^64 - n]. *)
Definition wraps_every_negative_amount : Prop :=
  ∀ (Route : Type) (InAmt OutAmt : Route → string)
    (GetBestRoute : Part001.QuoteResponse Route → Route * option error)
    (env : Env (Part001.Struct Route) (Part001.QuoteResponse Route))
    (params : ExchangeRateParams) (σ σ' : Store (Part001.Struct Route))
    (routes : Part001.QuoteResponse Route) (route : Route)
    (ds : string) (n b : Z),
    Part001.Quote env
      {| Part001.InputMint := er_InputMint params;
         Part001.OutputMint := er_OutputMint params;
         Part001.Amount := er_Amount params;
         Part001.FeeBps := 0;
         Part001.SwapMode := er_SwapMode params;
         Part001.OnlyDirectRoutes := false |} σ = ((routes, None), σ') →
    GetBestRoute routes = (route, None) →
    InAmt route = String "-" ds → strconv.decimal ds = Some n → (0 < n)%Z →
    strconv.ParseInt (OutAmt route) 10 64 = (b, None) →
    Part001.ExchangeRate InAmt OutAmt GetBestRoute env params σ
    = (({| rate_InputMint := er_InputMint params;
           rate_OutputMint := er_OutputMint params;
           rate_InAmount := (two64 - n)%Z;
           rate_OutAmount := to_uint64 b |}, None), σ').

(** ** A concrete run

    What the libraries and the remote service answer in one run: every
    library call succeeds and the decoders hand back the given values. *)
Module Scenario.

Record Replies (QuoteT : Type) : Type := {
  reply : result HTTPResponse;
  envelope : Response * option error;
  quotes : QuoteT * option error;
  prices : PriceMap * option error;
  swap : SwapResponse * option error;
  routes_map : IndexedRoutesMap * option error;
}.
Arguments reply {QuoteT} _.
Arguments envelope {QuoteT} _.
Arguments quotes {QuoteT} _.
Arguments prices {QuoteT} _.
Arguments swap {QuoteT} _.
Arguments routes_map {QuoteT} _.

(** A URL parser that keeps the endpoint as the path, and its printer. *)
Definition parse (endpoint : string) : result URL :=
  Ok {| Scheme := ""; Opaque := ""; User := None; Host := "";
        Path := endpoint; RawPath := ""; OmitHost := false;
        ForceQuery := false; RawQuery := ""; Fragment := "";
        RawFragment := "" |}.

Definition print (u : URL) : string :=
  if decide (RawQuery u = "") then Path u else Path u +:+ "?" +:+ RawQuery u.

Definition encode (uv : url_Values) : string :=
  String.concat "&"
    (map (λ kv : string * list string,
            fst kv +:+ "=" +:+ String.concat "," (snd kv))
         (map_to_list uv)).

Definition env {Struct QuoteT : Type}
    (values : Struct → result url_Values) (rp : Replies QuoteT)
  : Env Struct QuoteT :=
  {| url_Parse := parse;
     URL_String := print;
     Values_Encode := encode;
     query_Values := values;
     json_Marshal := λ v, Ok (if any_is_nil v then "null" else "{}");
     http_NewRequest_check := λ _ _, None;
     httpclient_Do := λ _ _ _, reply rp;
     decode_Response := λ _, envelope rp;
     decode_SwapResponse := λ _, swap rp;
     decode_IndexedRoutesMap := λ _, routes_map rp;
     unmarshal_QuoteResponse := λ _, quotes rp;
     unmarshal_PriceMap := λ _, prices rp |}.

Definition start {Struct} (c : JupagImpl) : Store Struct :=
  {| client := c; trace := [] |}.

(** *** The route map endpoint of [Part000]

    The service answers [/indexed-route-map] with the route map itself,
    not wrapped in an envelope: decoded as an envelope, the body has no
    ["data"] member and leaves [Data] nil. *)
Definition quoted (s : string) : string :=
  String (ascii_of_nat 34) s +:+ String (ascii_of_nat 34) "".

Definition route_map_body : string :=
  "{" +:+ quoted "mintKeys" +:+ ":[" +:+ quoted "SOL" +:+ "],"
      +:+ quoted "indexedRouteMap" +:+ ":{" +:+ quoted "0" +:+ ":[0]}}".

Definition route_map : IndexedRoutesMap :=
  {| MintKeys := ["SOL"]; IndexedRouteMap := {[ "0" := [0%Z] ]} |}.

Definition values000 (s : Part000.Struct) : result url_Values :=
  match s with
  | Part000.S_QuoteParams p =>
      Ok {[ "inputMint" := [qp_InputMint p];
            "outputMint" := [qp_OutputMint p];
            "amount" := [strconv.Itoa (qp_Amount p)] ]}
  | Part000.S_PriceParams p => Ok {[ "ids" := [pp_IDs p] ]}
  | Part000.S_SwapParams _ => Ok ∅
  end.

Definition quote_params : QuoteParams :=
  {| qp_InputMint := "SOL"; qp_OutputMint := "USDC"; qp_Amount := 1000;
     qp_SwapMode := ""; qp_DynamicSlippage := false;
     qp_OnlyDirectRoutes := false; qp_AsLegacyTransaction := false;
     qp_MinimizeSlippage := false |}.

Definition route_map_env : Env Part000.Struct QuoteResponse :=
  env values000
    {| reply := Ok {| StatusCode := 200; Body := route_map_body |};
       envelope := (zero_Response, None);
       quotes := (zero_QuoteResponse,
                  Some (libError "json" "unexpected end of JSON input"));
       prices := (None, Some (libError "json" "unexpected end of JSON input"));
       swap := (zero_SwapResponse, None);
       routes_map := (route_map, None) |}.

(** *** A quote of [Part001]

    Routes with the two amount fields; the best route is the first. *)
Record Route : Type := {
  InAmount : string;
  OutAmount : string;
}.

Definition first_route (q : Part001.QuoteResponse Route)
  : Route * option error :=
  match slice_elems q with
  | [] => ({| InAmount := ""; OutAmount := "" |},
           Some (errorString "no routes"))
  | r :: _ => (r, None)
  end.

Definition values001 (s : Part001.Struct Route) : result url_Values :=
  match s with
  | Part001.S_QuoteParams p =>
      Ok {[ "inputMint" := [Part001.InputMint p];
            "outputMint" := [Part001.OutputMint p];
            "amount" := [strconv.Itoa (Part001.Amount p)] ]}
  | Part001.S_PriceParams p => Ok {[ "ids" := [pp_IDs p] ]}
  | Part001.S_SwapParams _ => Ok ∅
  end.

Definition route_json (r : Route) : string :=
  "{" +:+ quoted "inAmount" +:+ ":" +:+ quoted (InAmount r) +:+ ","
      +:+ quoted "outAmount" +:+ ":" +:+ quoted (OutAmount r) +:+ "}".

Definition routes_json (routes : list Route) : string :=
  "[" +:+ String.concat "," (map route_json routes) +:+ "]".

Definition quote_env (routes : list Route)
  : Env (Part001.Struct Route) (Part001.QuoteResponse Route) :=
  env values001
    {| reply := Ok {| StatusCode := 200;
                      Body := "{" +:+ quoted "data" +:+ ":"
                                  +:+ routes_json routes +:+ "}" |};
       envelope := ({| Data := Some (routes_json routes); TimeTaken := 0%Z;
                       ContextSlot := 0%Z |}, None);
       quotes := (make_slice routes, None);
       prices := (None, None);
       swap := (zero_SwapResponse, None);
       routes_map := (zero_IndexedRoutesMap, None) |}.

Definition rate_params : ExchangeRateParams :=
  {| er_InputMint := "SOL"; er_OutputMint := "USDC";
     er_Amount := 1000; er_SwapMode := "ExactIn" |}.

End Scenario.


(** ** The query of a URL *)

(** [u'] is [u] with its query string replaced by [q]: its [RawQuery] is
    [q] and each of its other fields is that of [u]. *)
Definition query_replaced (q : string) (u u' : URL) : Prop :=
  RawQuery u' = q
  ∧ Scheme u' = Scheme u ∧ Opaque u' = Opaque u ∧ User u' = User u
  ∧ Host u' = Host u ∧ Path u' = Path u ∧ RawPath u' = RawPath u
  ∧ OmitHost u' = OmitHost u ∧ ForceQuery u' = ForceQuery u
  ∧ Fragment u' = Fragment u ∧ RawFragment u' = RawFragment u.

(** ** Transport calls of a computation *)

(** A computation only appends to the trace, and what it appends holds at
    most [n] calls of the transport. *)
Definition sends_at_most {Struct A} (n : nat) (m : M Struct A) : Prop :=
  ∀ σ, ∃ evs,
    trace (snd (m σ)) = (trace σ ++ evs)%list
    ∧ (length (List.filter is_EvDo evs) <= n)%nat.

(** ** Further runs

    Runs in which the service answers with a status other than 200, and
    the requests and parameters of the runs above. *)
Module Cases.

(** The service is down: a 503 with a plain body. *)
Definition unavailable_env : Env Part000.Struct QuoteResponse :=
  Scenario.env Scenario.values000
    {| Scenario.reply := Ok {| StatusCode := 503; Body := "Service Unavailable" |};
       Scenario.envelope :=
         (zero_Response, Some (libError "json" "invalid character 'S'"));
       Scenario.quotes :=
         (zero_QuoteResponse,
          Some (libError "json" "unexpected end of JSON input"));
       Scenario.prices :=
         (None, Some (libError "json" "unexpected end of JSON input"));
       Scenario.swap :=
         (zero_SwapResponse, Some (libError "json" "invalid character 'S'"));
       Scenario.routes_map :=
         (zero_IndexedRoutesMap,
          Some (libError "json" "invalid character 'S'")) |}.

(** The route map served with the status 404. *)
Definition not_found_env : Env Part000.Struct QuoteResponse :=
  Scenario.env Scenario.values000
    {| Scenario.reply :=
         Ok {| StatusCode := 404; Body := Scenario.route_map_body |};
       Scenario.envelope := (zero_Response, None);
       Scenario.quotes :=
         (zero_QuoteResponse,
          Some (libError "json" "unexpected end of JSON input"));
       Scenario.prices :=
         (None, Some (libError "json" "unexpected end of JSON input"));
       Scenario.swap := (zero_SwapResponse, None);
       Scenario.routes_map := (Scenario.route_map, None) |}.

(** The query values of the quote of [Scenario.quote_params]. *)
Definition quote_values : url_Values :=
  {[ "inputMint" := ["SOL"]; "outputMint" := ["USDC"]; "amount" := ["1000"] ]}.

Definition quote_endpoint000 : string := "https://quote-proxy.jup.ag/quote".
Definition quote_endpoint001 : string := "https://price.jup.ag/v6/quote".

(** The request [Part000.request] builds for that quote. *)
Definition quote_request000 : Request :=
  {| Method := MethodGet;
     RequestURL := quote_endpoint000 +:+ "?" +:+ Scenario.encode quote_values;
     Header := {[ "Cache-Control" := ["no-cache"] ]};
     RequestBody := Some "null" |}.

(** The request [Part001.request] builds for it. *)
Definition quote_request001 : Request :=
  {| Method := MethodGet;
     RequestURL := quote_endpoint001 +:+ "?" +:+ Scenario.encode quote_values;
     Header := ∅;
     RequestBody := Some "null" |}.

Definition quote_params001 : Part001.QuoteParams :=
  {| Part001.InputMint := "SOL"; Part001.OutputMint := "USDC";
     Part001.Amount := 1000; Part001.FeeBps := 0;
     Part001.SwapMode := "ExactIn"; Part001.OnlyDirectRoutes := false |}.

Definition one_route : Scenario.Route :=
  {| Scenario.InAmount := "1000"; Scenario.OutAmount := "2500" |}.

(** A selection that agrees with [Scenario.first_route] on every list that
    has a route and differs on the empty one. *)
Definition first_route_or_panic_message (q : Part001.QuoteResponse Scenario.Route)
  : Scenario.Route * option error :=
  match slice_elems q with
  | [] => (one_route, Some (errorString "empty quote response"))
  | r :: _ => (r, None)
  end.

(** A swap of 1000 with no swap mode given. *)
Definition swap_params : BestSwapParams :=
  {| bs_UserPublicKey := "user"; bs_DestinationPublicKey := "";
     bs_FeeAmount := 0; bs_FeeAccount := ""; bs_InputMint := "SOL";
     bs_OutputMint := "USDC"; bs_Amount := 1000; bs_SwapMode := "" |}.

(** A quote answered in an envelope. *)
Definition a_quote : QuoteResponse :=
  {| qr_ContextSlot := 7; qr_InAmount := "1000"; qr_InputMint := "SOL";
     qr_OtherAmountThreshold := "2475"; qr_OutAmount := "2500";
     qr_OutputMint := "USDC"; qr_PlatformFee := None;
     qr_PriceImpactPct := "0"; qr_RoutePlan := zero_Route;
     qr_ScoreReport := None; qr_SlippageBps := 50; qr_SwapMode := "ExactIn";
     qr_SwapType := "aggregator"; qr_TimeTaken := 0%Z |}.

Definition quoted_env : Env Part000.Struct QuoteResponse :=
  Scenario.env Scenario.values000
    {| Scenario.reply := Ok {| StatusCode := 200; Body := "<envelope>" |};
       Scenario.envelope :=
         ({| Data := Some "<quote>"; TimeTaken := 0%Z; ContextSlot := 7%Z |},
          None);
       Scenario.quotes := (a_quote, None);
       Scenario.prices := (None, Some (libError "json" "cannot unmarshal"));
       Scenario.swap := (zero_SwapResponse, None);
       Scenario.routes_map := (zero_IndexedRoutesMap, None) |}.

(** *** A run with the URL of the quote endpoint taken apart

    [url.Parse] of the quote endpoint, [URL.String] for a URL of a scheme,
    a host, a path and a query, and [Values.Encode] for keys and values
    that need no escaping: the pairs [key=value], sorted by key, joined
    by ["&"]. *)
Definition quote_url : URL :=
  {| Scheme := "https"; Opaque := ""; User := None;
     Host := "quote-proxy.jup.ag"; Path := "/quote"; RawPath := "";
     OmitHost := false; ForceQuery := false; RawQuery := "";
     Fragment := ""; RawFragment := "" |}.

Definition parse_endpoint (endpoint : string) : result URL :=
  if decide (endpoint = quote_endpoint000) then Ok quote_url
  else Err (libError "url" "parse").

Definition print_url (u : URL) : string :=
  Scheme u +:+ "://" +:+ Host u +:+ Path u
  +:+ (if decide (RawQuery u = "") then "" else "?" +:+ RawQuery u).

Fixpoint insert_by_key (kv : string * list string)
    (l : list (string * list string)) : list (string * list string) :=
  match l with
  | [] => [kv]
  | kv' :: l' =>
      if String.leb (fst kv) (fst kv') then kv :: l
      else kv' :: insert_by_key kv l'
  end.

Definition sort_by_key (l : list (string * list string))
  : list (string * list string) :=
  foldr insert_by_key [] l.

Definition encode_sorted (uv : url_Values) : string :=
  String.concat "&"
    (flat_map (λ kv : string * list string,
                 map (λ v, fst kv +:+ "=" +:+ v) (snd kv))
              (sort_by_key (map_to_list uv))).

Definition url_env : Env Part000.Struct QuoteResponse :=
  {| url_Parse := parse_endpoint;
     URL_String := print_url;
     Values_Encode := encode_sorted;
     query_Values := Scenario.values000;
     json_Marshal := json_Marshal quoted_env;
     http_NewRequest_check := http_NewRequest_check quoted_env;
     httpclient_Do := httpclient_Do quoted_env;
     decode_Response := decode_Response quoted_env;
     decode_SwapResponse := decode_SwapResponse quoted_env;
     decode_IndexedRoutesMap := decode_IndexedRoutesMap quoted_env;
     unmarshal_QuoteResponse := unmarshal_QuoteResponse quoted_env;
     unmarshal_PriceMap := unmarshal_PriceMap quoted_env |}.

(** Routes compared by the out amount they give, read as a number: a
    route is better when it gives more. *)
Definition out_amount (r : Scenario.Route) : Z :=
  fst (strconv.ParseInt (Scenario.OutAmount r) 10 64).

Definition gives_more (r best : Scenario.Route) : bool :=
  (out_amount best <? out_amount r)%Z.

Definition no_route : Scenario.Route :=
  {| Scenario.InAmount := ""; Scenario.OutAmount := "" |}.

Definition three_routes : list Scenario.Route :=
  [ {| Scenario.InAmount := "1000"; Scenario.OutAmount := "2500" |};
    {| Scenario.InAmount := "1001"; Scenario.OutAmount := "2600" |};
    {| Scenario.InAmount := "1002"; Scenario.OutAmount := "2400" |} ].

End Cases.

(** * Properties *)

(** ** Fixed-width arithmetic and [strconv] *)

Lemma to_uint64_small (x : Z) : (0 <= x < two64)%Z → to_uint64 x = x.
Proof. intros H. unfold to_uint64. apply Z.mod_small; exact H. Qed.

Lemma to_int64_small (x : Z) : (- two63 <= x < two63)%Z → to_int64 x = x.
Proof.
  intros H. unfold to_int64, two63, two64 in *.
  rewrite Z.mod_small; lia.
Qed.

Lemma to_uint64_neg (n : Z) : (0 < n <= two64)%Z → to_uint64 (- n) = (two64 - n)%Z.
Proof.
  intros H. unfold to_uint64.
  replace (- n)%Z with ((two64 - n) + (-1) * two64)%Z by lia.
  rewrite Z.mod_add by (unfold two64; lia).
  apply Z.mod_small. lia.
Qed.

Lemma digit_val_digit (c : ascii) :
  strconv.is_digit c = true →
  strconv.digit_val (strconv.byte_code c) = Some (strconv.byte_code c - 48)%Z.
Proof.
  unfold strconv.is_digit, strconv.digit_val. intros ->. reflexivity.
Qed.

Lemma is_digit_range (c : ascii) :
  strconv.is_digit c = true → (0 <= strconv.byte_code c - 48 <= 9)%Z.
Proof. unfold strconv.is_digit. lia. Qed.

Lemma digits_value_ge (s : string) : ∀ acc n,
  (0 <= acc)%Z → strconv.digits_value acc s = Some n → (acc <= n)%Z.
Proof.
  induction s as [|c s IH]; intros acc n Hacc;
    cbn [strconv.digits_value strconv.ParseUint_loop].
  - intros [= ->]. lia.
  - destruct (strconv.is_digit c) eqn:Hc; [|discriminate].
    intros H. pose proof (is_digit_range c Hc).
    apply IH in H; lia.
Qed.

(** The loop of [ParseUint] reads a run of digits whose value fits 64 bits
    to that value. *)
Lemma ParseUint_loop_decimal (s : string) : ∀ acc n,
  (0 <= acc)%Z → strconv.digits_value acc s = Some n → (n < two64)%Z →
  strconv.ParseUint_loop 10 (maxUint64 / 10 + 1) (2 ^ 64 - 1) s acc = (n, None).
Proof.
  induction s as [|c s IH]; intros acc n Hacc;
    cbn [strconv.digits_value strconv.ParseUint_loop].
  - intros [= ->] _. reflexivity.
  - destruct (strconv.is_digit c) eqn:Hc; [|discriminate].
    intros Hv Hn. rewrite (digit_val_digit c Hc).
    pose proof (is_digit_range c Hc) as Hd.
    assert (10 * acc + (strconv.byte_code c - 48) <= n)%Z as Hge
      by (apply (digits_value_ge s); [lia|exact Hv]).
    set (d := (strconv.byte_code c - 48)%Z) in *.
    change (maxUint64 / 10 + 1)%Z with 1844674407370955162%Z.
    change (2 ^ 64 - 1)%Z with 18446744073709551615%Z.
    unfold two64 in *.
    destruct (10 <=? d)%Z eqn:E1; [lia|].
    destruct (1844674407370955162 <=? acc)%Z eqn:E2; [lia|].
    rewrite (to_uint64_small (acc * 10)) by (unfold two64; lia).
    rewrite (to_uint64_small (acc * 10 + d)) by (unfold two64; lia).
    destruct (acc * 10 + d <? acc * 10)%Z eqn:E3; [lia|].
    destruct (18446744073709551615 <? acc * 10 + d)%Z eqn:E4; [lia|].
    cbn [orb].
    change (maxUint64 / 10 + 1)%Z with 1844674407370955162%Z in IH.
    change (2 ^ 64 - 1)%Z with 18446744073709551615%Z in IH.
    apply IH; [lia| |unfold two64; lia].
    replace (acc * 10 + d)%Z with (10 * acc + d)%Z by lia. exact Hv.
Qed.

(** ... and reports a range error when the value does not fit. *)
Lemma ParseUint_loop_overflow (s : string) : ∀ acc n,
  (0 <= acc < two64)%Z → strconv.digits_value acc s = Some n → (two64 <= n)%Z →
  strconv.ParseUint_loop 10 (maxUint64 / 10 + 1) (2 ^ 64 - 1) s acc
  = ((2 ^ 64 - 1)%Z, Some ErrRange).
Proof.
  induction s as [|c s IH]; intros acc n Hacc;
    cbn [strconv.digits_value strconv.ParseUint_loop].
  - intros [= ->] ?. lia.
  - destruct (strconv.is_digit c) eqn:Hc; [|discriminate].
    intros Hv Hn. rewrite (digit_val_digit c Hc).
    pose proof (is_digit_range c Hc) as Hd.
    set (d := (strconv.byte_code c - 48)%Z) in *.
    change (maxUint64 / 10 + 1)%Z with 1844674407370955162%Z in *.
    change (2 ^ 64 - 1)%Z with 18446744073709551615%Z in *.
    unfold two64 in *.
    destruct (10 <=? d)%Z eqn:E1; [lia|].
    destruct (1844674407370955162 <=? acc)%Z eqn:E2; [reflexivity|].
    rewrite (to_uint64_small (acc * 10)) by (unfold two64; lia).
    destruct (Z_lt_dec (acc * 10 + d) 18446744073709551616) as [Hfit|Hover].
    + rewrite (to_uint64_small (acc * 10 + d)) by (unfold two64; lia).
      destruct (acc * 10 + d <? acc * 10)%Z eqn:E3; [lia|].
      destruct (18446744073709551615 <? acc * 10 + d)%Z eqn:E4; [lia|].
      cbn [orb]. apply (IH _ n); [lia| |lia].
      replace (acc * 10 + d)%Z with (10 * acc + d)%Z by lia. exact Hv.
    + assert (to_uint64 (acc * 10 + d) = (acc * 10 + d - 18446744073709551616)%Z) as ->.
      { unfold to_uint64, two64. symmetry.
        apply (Z.mod_unique _ _ 1); [left; lia|lia]. }
      destruct (acc * 10 + d - 18446744073709551616 <? acc * 10)%Z eqn:E3; [|lia].
      reflexivity.
Qed.

Lemma decimal_nonempty (s : string) (n : Z) :
  strconv.decimal s = Some n → s ≠ "" ∧ strconv.digits_value 0 s = Some n.
Proof. destruct s; [discriminate|]. intros H. split; [discriminate|exact H]. Qed.

Lemma decimal_nonneg (s : string) (n : Z) : strconv.decimal s = Some n → (0 <= n)%Z.
Proof.
  intros H. apply decimal_nonempty in H as [_ H].
  apply digits_value_ge in H; lia.
Qed.

Lemma ParseUint_decimal (s : string) (n : Z) :
  strconv.decimal s = Some n → (n < two64)%Z →
  strconv.ParseUint s 10 64 = (n, None).
Proof.
  intros H Hn. apply decimal_nonempty in H as [Hs H].
  destruct s as [|c s]; [done|].
  unfold strconv.ParseUint.
  change (negb ((2 <=? 10)%Z && (10 <=? 36)%Z)) with false. cbv iota.
  change (if (64 =? 0)%Z then 64%Z else 64%Z) with 64%Z. cbv zeta.
  change ((64 <? 0)%Z || (64 <? 64)%Z) with false. cbv iota.
  apply ParseUint_loop_decimal; [lia|exact H|exact Hn].
Qed.

Lemma ParseUint_decimal_overflow (s : string) (n : Z) :
  strconv.decimal s = Some n → (two64 <= n)%Z →
  strconv.ParseUint s 10 64 = ((2 ^ 64 - 1)%Z, Some ErrRange).
Proof.
  intros H Hn. apply decimal_nonempty in H as [Hs H].
  destruct s as [|c s]; [done|].
  unfold strconv.ParseUint.
  change (negb ((2 <=? 10)%Z && (10 <=? 36)%Z)) with false. cbv iota.
  change (if (64 =? 0)%Z then 64%Z else 64%Z) with 64%Z. cbv zeta.
  change ((64 <? 0)%Z || (64 <? 64)%Z) with false. cbv iota.
  apply (ParseUint_loop_overflow _ 0 n); [unfold two64; lia|exact H|exact Hn].
Qed.

Lemma digit_not_sign (c : ascii) :
  strconv.is_digit c = true → c ≠ "+"%char ∧ c ≠ "-"%char.
Proof. intros H. split; intros ->; vm_compute in H; discriminate. Qed.

(** [ParseInt] reads a decimal string below [2^63] to its value. *)
Lemma ParseInt_decimal (s : string) (n : Z) :
  strconv.decimal s = Some n → (n < two63)%Z →
  strconv.ParseInt s 10 64 = (n, None).
Proof.
  intros H Hn. pose proof (decimal_nonneg _ _ H) as H0.
  pose proof (ParseUint_decimal s n H ltac:(unfold two63, two64 in *; lia)) as HU.
  destruct s as [|c0 rest]; [discriminate|].
  assert (strconv.is_digit c0 = true) as Hc.
  { cbn in H. destruct (strconv.is_digit c0); [reflexivity|discriminate]. }
  destruct (digit_not_sign c0 Hc) as [Hplus Hminus].
  unfold strconv.ParseInt.
  destruct (decide (c0 = "+"%char)) as [|_]; [done|].
  destruct (decide (c0 = "-"%char)) as [|_]; [done|].
  rewrite HU. cbn [negb andb].
  change (if (64 =? 0)%Z then 64%Z else 64%Z) with 64%Z. cbv zeta.
  change (2 ^ (64 - 1))%Z with two63.
  destruct (two63 <=? n)%Z eqn:E; [lia|].
  rewrite to_int64_small by lia. reflexivity.
Qed.

(** A decimal string of value [2^63] or more is a range error. *)
Lemma ParseInt_decimal_range (s : string) (n : Z) :
  strconv.decimal s = Some n → (two63 <= n)%Z →
  strconv.ParseInt s 10 64
  = ((two63 - 1)%Z, Some (NumError "ParseInt" s ErrRange)).
Proof.
  intros H Hn.
  assert (∃ un err, strconv.ParseUint s 10 64 = (un, err)
            ∧ (two63 <= un)%Z ∧ (err = None ∨ err = Some ErrRange))
    as (un & err & HU & Hun & Herr).
  { destruct (Z_lt_dec n two64) as [Hlt|Hge].
    - exists n, None. rewrite (ParseUint_decimal s n H Hlt). auto.
    - exists (2 ^ 64 - 1)%Z, (Some ErrRange).
      rewrite (ParseUint_decimal_overflow s n H ltac:(lia)).
      split; [reflexivity|]. split; [unfold two63; lia|auto]. }
  destruct s as [|c0 rest]; [discriminate|].
  assert (strconv.is_digit c0 = true) as Hc.
  { cbn in H. destruct (strconv.is_digit c0); [reflexivity|discriminate]. }
  destruct (digit_not_sign c0 Hc) as [Hplus Hminus].
  unfold strconv.ParseInt.
  destruct (decide (c0 = "+"%char)) as [|_]; [done|].
  destruct (decide (c0 = "-"%char)) as [|_]; [done|].
  rewrite HU.
  assert (match err with
          | Some k => negb (bool_decide (k = ErrRange))
          | None => false
          end = false) as -> by (destruct Herr as [-> | ->]; reflexivity).
  change (if (64 =? 0)%Z then 64%Z else 64%Z) with 64%Z. cbv zeta.
  change (2 ^ (64 - 1))%Z with two63.
  destruct (two63 <=? un)%Z eqn:E; [|lia].
  reflexivity.
Qed.

(** A minus sign before a decimal string of value at most [2^63] reads as
    the negated value. *)
Lemma ParseInt_negative (ds : string) (n : Z) :
  strconv.decimal ds = Some n → (n <= two63)%Z →
  strconv.ParseInt (String "-" ds) 10 64 = ((- n)%Z, None).
Proof.
  intros H Hn. pose proof (decimal_nonneg _ _ H) as H0.
  pose proof (ParseUint_decimal ds n H ltac:(unfold two63, two64 in *; lia)) as HU.
  unfold strconv.ParseInt.
  destruct (decide ("-"%char = "+"%char)) as [Heq|_]; [discriminate Heq|].
  destruct (decide ("-"%char = "-"%char)) as [_|Hne]; [|done].
  rewrite HU. cbn [negb andb].
  change (if (64 =? 0)%Z then 64%Z else 64%Z) with 64%Z. cbv zeta.
  change (2 ^ (64 - 1))%Z with two63.
  destruct (two63 <? n)%Z eqn:E; [lia|].
  f_equal.
  destruct (Z.eq_dec n two63) as [->|Hlt].
  - reflexivity.
  - rewrite (to_int64_small n) by (unfold two63 in *; lia).
    apply to_int64_small. unfold two63 in *; lia.
Qed.

(** Below [-2^63] the sign does not help: a range error. *)
Lemma ParseInt_negative_range (ds : string) (n : Z) :
  strconv.decimal ds = Some n → (two63 < n)%Z →
  strconv.ParseInt (String "-" ds) 10 64
  = ((- two63)%Z, Some (NumError "ParseInt" (String "-" ds) ErrRange)).
Proof.
  intros H Hn.
  assert (∃ un err, strconv.ParseUint ds 10 64 = (un, err)
            ∧ (two63 < un)%Z ∧ (err = None ∨ err = Some ErrRange))
    as (un & err & HU & Hun & Herr).
  { destruct (Z_lt_dec n two64) as [Hlt|Hge].
    - exists n, None. rewrite (ParseUint_decimal ds n H Hlt). auto.
    - exists (2 ^ 64 - 1)%Z, (Some ErrRange).
      rewrite (ParseUint_decimal_overflow ds n H ltac:(lia)).
      split; [reflexivity|]. split; [unfold two63; lia|auto]. }
  unfold strconv.ParseInt.
  destruct (decide ("-"%char = "+"%char)) as [Heq|_]; [discriminate Heq|].
  destruct (decide ("-"%char = "-"%char)) as [_|Hne]; [|done].
  rewrite HU.
  assert (match err with
          | Some k => negb (bool_decide (k = ErrRange))
          | None => false
          end = false) as -> by (destruct Herr as [-> | ->]; reflexivity).
  change (if (64 =? 0)%Z then 64%Z else 64%Z) with 64%Z. cbv zeta.
  change (2 ^ (64 - 1))%Z with two63. cbn [negb andb].
  destruct (two63 <? un)%Z eqn:E; [|lia].
  reflexivity.
Qed.

(** ** [GetRoutesForMint] *)

Lemma find_absent irm mint : ∀ rest key acc,
  mint ∉ rest → GetRoutesForMint_find irm mint key rest acc = acc.
Proof.
  induction rest as [|val rest IH]; intros key acc Hnot; cbn; [reflexivity|].
  apply not_elem_of_cons in Hnot as [Hne Hnot].
  destruct (decide (val = mint)) as [->|_]; [done|].
  apply IH, Hnot.
Qed.

Lemma find_last irm mint : ∀ rest key acc i,
  last_position rest mint i →
  GetRoutesForMint_find irm mint key rest acc
  = default [] (irm !! strconv.Itoa (Z.of_nat (key + i))).
Proof.
  induction rest as [|val rest IH]; intros key acc i [Hi Hlast].
  - rewrite lookup_nil in Hi. discriminate.
  - cbn. destruct i as [|i].
    + cbn in Hi. injection Hi as ->.
      destruct (decide (mint = mint)) as [_|]; [|done].
      rewrite find_absent.
      * rewrite Nat.add_0_r. reflexivity.
      * intros Hin. apply list_elem_of_lookup in Hin as [j Hj].
        apply (Hlast (S j)); [lia|exact Hj].
    + rewrite (IH (S key) _ i).
      * replace (S key + i) with (key + S i) by lia. reflexivity.
      * split; [exact Hi|]. intros j Hj. apply (Hlast (S j)). lia.
Qed.

Lemma collect_returns keys : ∀ idxs acc l,
  routes_at keys idxs l →
  GetRoutesForMint_collect keys idxs acc = Returns (acc ++ l)%list.
Proof.
  induction idxs as [|k idxs IH]; intros acc l H; inversion H; subst; cbn.
  - rewrite app_nil_r. reflexivity.
  - match goal with Hk : index keys k = Some _ |- _ => rewrite Hk end.
    rewrite (IH _ l'); [|assumption]. rewrite <- app_assoc. reflexivity.
Qed.

Lemma collect_inv keys : ∀ idxs acc res,
  GetRoutesForMint_collect keys idxs acc = Returns res →
  Forall (λ k, is_Some (index keys k)) idxs.
Proof.
  induction idxs as [|k idxs IH]; intros acc res H; [constructor|].
  cbn in H. destruct (index keys k) as [s|] eqn:Hk; [|discriminate].
  constructor; [eauto|]. eapply IH, H.
Qed.

Lemma collect_panics keys : ∀ idxs acc,
  Exists (λ k, index keys k = None) idxs →
  ∃ k, k ∈ idxs ∧ index keys k = None
       ∧ GetRoutesForMint_collect keys idxs acc
         = Panics (index_out_of_range k (length keys)).
Proof.
  induction idxs as [|k idxs IH]; intros acc H; [inversion H|].
  cbn. destruct (index keys k) as [s|] eqn:Hk.
  - inversion H as [? ? Hk'|? ? Hex]; subst; [congruence|].
    destruct (IH (acc ++ [s])%list Hex) as (k' & Hin & Hnone & Heq).
    exists k'. split; [by apply list_elem_of_further|]. split; [exact Hnone|exact Heq].
  - exists k. split; [apply list_elem_of_here|]. split; [exact Hk|reflexivity].
Qed.

Lemma index_is_Some {A} (l : list A) (k : Z) :
  is_Some (index l k) ↔ (0 <= k < Z.of_nat (length l))%Z.
Proof.
  unfold index. destruct (0 <=? k)%Z eqn:E.
  - rewrite lookup_lt_is_Some. lia.
  - split; [intros [? ?]; discriminate|lia].
Qed.

Lemma index_None {A} (l : list A) (k : Z) :
  index l k = None ↔ (k < 0 ∨ Z.of_nat (length l) <= k)%Z.
Proof.
  rewrite eq_None_not_Some, index_is_Some. lia.
Qed.

(** The second loop returns the elements at the indices, when all of them
    exist. *)
Lemma collect_mapM keys : ∀ idxs acc,
  returned (GetRoutesForMint_collect keys idxs acc)
  = (λ l, acc ++ l)%list <$> mapM (index keys) idxs.
Proof.
  induction idxs as [|k idxs IH]; intros acc; cbn.
  - rewrite app_nil_r. reflexivity.
  - destruct (index keys k) as [s|]; cbn; [|reflexivity].
    rewrite IH. destruct (mapM (index keys) idxs) as [l|]; cbn; [|reflexivity].
    rewrite <- app_assoc. reflexivity.
Qed.

(** [C5] For every route map and mint: when the mint occurs among the mint
    keys, with [i] its last position, what [GetRoutesForMint] returns is
    the list of [MintKeys[k]] for the indices [k] stored under [Itoa i], in
    order (a list that exists when each [MintKeys[k]] does); when the mint
    does not occur, it returns an empty slice that is not nil. *)
Theorem GetRoutesForMint_last_occurrence (r : IndexedRoutesMap) (mint : string) :
  (∀ i,
      last_position (MintKeys r) mint i →
      returned (GetRoutesForMint r mint)
      = make_slice
          <$> mapM (index (MintKeys r))
                   (default [] (IndexedRouteMap r !! strconv.Itoa (Z.of_nat i))))
  ∧ (mint ∉ MintKeys r →
     ∃ s, GetRoutesForMint r mint = Returns s
          ∧ slice_elems s = [] ∧ is_nil_slice s = false).
Proof.
  split.
  - intros i Hlast. unfold GetRoutesForMint.
    rewrite (find_last _ _ _ 0 [] i Hlast). cbn [Nat.add].
    pose proof (collect_mapM (MintKeys r)
                  (default [] (IndexedRouteMap r !! strconv.Itoa (Z.of_nat i)))
                  []) as H.
    destruct (GetRoutesForMint_collect _ _ _) as [res|p];
      destruct (mapM _ _) as [l|]; cbn in *; congruence.
  - intros Hnot. unfold GetRoutesForMint.
    rewrite (find_absent _ _ _ 0 [] Hnot). cbn.
    exists (make_slice []). auto.
Qed.

(** The route map of the examples: the mint ["A"] sits at positions 0 and
    2, and only the entry of position 2 counts. *)
Example GetRoutesForMint_last_occurrence_witness :
  returned
    (GetRoutesForMint
       {| MintKeys := ["A"; "B"; "A"];
          IndexedRouteMap := {[ "0" := [1%Z]; "2" := [1%Z; 0%Z; 2%Z] ]} |} "A")
  = Some (make_slice ["B"; "A"; "A"]).
Proof.
  rewrite (proj1 (GetRoutesForMint_last_occurrence _ _) 2).
  - reflexivity.
  - split; [reflexivity|]. intros j Hj.
    destruct j as [|[|[|j]]]; try lia; cbn; discriminate.
Defined.

(** Without a panic, exactly the in-range case. *)
Lemma GetRoutesForMint_returns_iff (r : IndexedRoutesMap) (mint : string) (i : nat) :
  last_position (MintKeys r) mint i →
  (∃ s, GetRoutesForMint r mint = Returns s)
  ↔ Forall (λ k, 0 <= k < Z.of_nat (length (MintKeys r)))%Z
           (default [] (IndexedRouteMap r !! strconv.Itoa (Z.of_nat i))).
Proof.
  intros Hlast. unfold GetRoutesForMint.
  rewrite (find_last _ _ _ 0 [] i Hlast). cbn [Nat.add].
  set (idxs := default [] _). split.
  - intros [s Hs].
    destruct (GetRoutesForMint_collect (MintKeys r) idxs []) as [res|p] eqn:E;
      [|discriminate].
    apply collect_inv in E. eapply Forall_impl; [exact E|].
    intros k Hk. by apply index_is_Some.
  - intros Hall.
    assert (∃ l, routes_at (MintKeys r) idxs l) as [l Hl].
    { clear -Hall. induction Hall as [|k idxs Hk _ [l IH]].
      - exists []. constructor.
      - apply index_is_Some in Hk as [s Hs]. exists (s :: l). by constructor. }
    rewrite (collect_returns _ _ [] l Hl). eauto.
Qed.

(** An index out of range, below zero or past the end, is a panic. *)
Lemma GetRoutesForMint_panics (r : IndexedRoutesMap) (mint : string) (i : nat) :
  last_position (MintKeys r) mint i →
  Exists (λ k, k < 0 ∨ Z.of_nat (length (MintKeys r)) <= k)%Z
         (default [] (IndexedRouteMap r !! strconv.Itoa (Z.of_nat i))) →
  ∃ k, GetRoutesForMint r mint
       = Panics (index_out_of_range k (length (MintKeys r))).
Proof.
  intros Hlast Hex. unfold GetRoutesForMint.
  rewrite (find_last _ _ _ 0 [] i Hlast). cbn [Nat.add].
  set (idxs := default [] _) in *.
  assert (Exists (λ k, index (MintKeys r) k = None) idxs) as Hnone.
  { eapply Exists_impl; [exact Hex|]. intros k Hk. by apply index_None. }
  destruct (collect_panics (MintKeys r) idxs [] Hnone) as (k & _ & _ & ->).
  eauto.
Qed.

(** [C6] [GetRoutesForMint] returns without a panic only if every index
    stored for the matched position is below [len(MintKeys)], and some
    route map with an index at or above that length makes the call panic
    with an index out of range. *)
Theorem GetRoutesForMint_unguarded_index :
  (∀ (r : IndexedRoutesMap) (mint : string) (i : nat),
      last_position (MintKeys r) mint i →
      (∃ s, GetRoutesForMint r mint = Returns s) →
      Forall (λ k, k < Z.of_nat (length (MintKeys r)))%Z
             (default [] (IndexedRouteMap r !! strconv.Itoa (Z.of_nat i))))
  ∧ (∃ (r : IndexedRoutesMap) (mint : string) (i : nat) (k : Z),
        last_position (MintKeys r) mint i
        ∧ k ∈ default [] (IndexedRouteMap r !! strconv.Itoa (Z.of_nat i))
        ∧ (Z.of_nat (length (MintKeys r)) <= k)%Z
        ∧ GetRoutesForMint r mint
          = Panics (index_out_of_range k (length (MintKeys r)))).
Proof.
  split.
  - intros r mint i Hlast Hret.
    apply (GetRoutesForMint_returns_iff r mint i Hlast) in Hret.
    eapply Forall_impl; [exact Hret|]. intros k Hk. cbn in Hk. lia.
  - exists {| MintKeys := ["A"; "B"; "A"];
              IndexedRouteMap := {[ "1" := [3%Z] ]} |}, "B", 1, 3%Z.
    split; [|split; [|split]].
    + split; [reflexivity|]. intros j Hj.
      destruct j as [|[|[|j]]]; try lia; cbn; discriminate.
    + vm_compute. apply list_elem_of_here.
    + cbn. lia.
    + reflexivity.
Qed.

(** ** [ExchangeRate] *)

Section ExchangeRate_facts.
Context {Route : Type}.
Context (InAmt OutAmt : Route → string).
Context (GetBestRoute : Part001.QuoteResponse Route → Route * option error).
Context (env : Env (Part001.Struct Route) (Part001.QuoteResponse Route)).

(** Once the quote is in and the best route chosen, [ExchangeRate] is the
    two calls of [ParseInt]. *)
Lemma ExchangeRate_after_quote (params : ExchangeRateParams)
    (σ σ' : Store (Part001.Struct Route))
    (routes : Part001.QuoteResponse Route) (route : Route) :
  Part001.Quote env
    {| Part001.InputMint := er_InputMint params;
       Part001.OutputMint := er_OutputMint params;
       Part001.Amount := er_Amount params;
       Part001.FeeBps := 0;
       Part001.SwapMode := er_SwapMode params;
       Part001.OnlyDirectRoutes := false |} σ = ((routes, None), σ') →
  GetBestRoute routes = (route, None) →
  Part001.ExchangeRate InAmt OutAmt GetBestRoute env params σ
  = (let result := {| rate_InputMint := er_InputMint params;
                      rate_OutputMint := er_OutputMint params;
                      rate_InAmount := 0; rate_OutAmount := 0 |} in
     match strconv.ParseInt (InAmt route) 10 64 with
     | (_, Some err) =>
         (result, Some (wrapError "failed to parse in amount" err))
     | (inAmount, None) =>
         match strconv.ParseInt (OutAmt route) 10 64 with
         | (_, Some err) =>
             (result, Some (wrapError "failed to parse out amount" err))
         | (outAmount, None) =>
             ({| rate_InputMint := er_InputMint params;
                 rate_OutputMint := er_OutputMint params;
                 rate_InAmount := to_uint64 inAmount;
                 rate_OutAmount := to_uint64 outAmount |}, None)
         end
     end, σ').
Proof.
  intros HQ HB. unfold Part001.ExchangeRate, bind. rewrite HQ, HB.
  cbv zeta.
  destruct (strconv.ParseInt (InAmt route) 10 64) as [a [ea|]]; [reflexivity|].
  destruct (strconv.ParseInt (OutAmt route) 10 64) as [b [eb|]]; reflexivity.
Qed.
End ExchangeRate_facts.

(** [C1] When the quote succeeds and the amounts of the best route are
    decimal strings of non-negative 64-bit signed integers, [ExchangeRate]
    returns no error and a rate with the mints of the parameters and the
    two parsed amounts; when either string fails to parse, it returns an
    error and a rate that carries the two mints and zero amounts. *)
Theorem ExchangeRate_parses_best_route {Route : Type}
    (InAmt OutAmt : Route → string)
    (GetBestRoute : Part001.QuoteResponse Route → Route * option error)
    (env : Env (Part001.Struct Route) (Part001.QuoteResponse Route))
    (params : ExchangeRateParams) (σ σ' : Store (Part001.Struct Route))
    (routes : Part001.QuoteResponse Route) (route : Route) :
  Part001.Quote env
    {| Part001.InputMint := er_InputMint params;
       Part001.OutputMint := er_OutputMint params;
       Part001.Amount := er_Amount params;
       Part001.FeeBps := 0;
       Part001.SwapMode := er_SwapMode params;
       Part001.OnlyDirectRoutes := false |} σ = ((routes, None), σ') →
  GetBestRoute routes = (route, None) →
  (∀ a b : Z,
      strconv.decimal (InAmt route) = Some a → (a < two63)%Z →
      strconv.decimal (OutAmt route) = Some b → (b < two63)%Z →
      Part001.ExchangeRate InAmt OutAmt GetBestRoute env params σ
      = (({| rate_InputMint := er_InputMint params;
             rate_OutputMint := er_OutputMint params;
             rate_InAmount := a; rate_OutAmount := b |}, None), σ'))
  ∧ (snd (strconv.ParseInt (InAmt route) 10 64) ≠ None
     ∨ snd (strconv.ParseInt (OutAmt route) 10 64) ≠ None →
     ∃ err,
       Part001.ExchangeRate InAmt OutAmt GetBestRoute env params σ
       = (({| rate_InputMint := er_InputMint params;
              rate_OutputMint := er_OutputMint params;
              rate_InAmount := 0; rate_OutAmount := 0 |}, Some err), σ')).
Proof.
  intros HQ HB.
  rewrite (ExchangeRate_after_quote InAmt OutAmt GetBestRoute env params
             σ σ' routes route HQ HB). cbv zeta.
  split.
  - intros a b Ha Hal Hb Hbl.
    rewrite (ParseInt_decimal _ a Ha Hal), (ParseInt_decimal _ b Hb Hbl).
    rewrite !to_uint64_small; [reflexivity| |].
    + pose proof (decimal_nonneg _ _ Hb). unfold two63, two64 in *. lia.
    + pose proof (decimal_nonneg _ _ Ha). unfold two63, two64 in *. lia.
  - intros Hfail.
    destruct (strconv.ParseInt (InAmt route) 10 64) as [a [ea|]]; [eauto|].
    destruct (strconv.ParseInt (OutAmt route) 10 64) as [b [eb|]]; [eauto|].
    cbn in Hfail. destruct Hfail; congruence.
Qed.

(** One route, 1000 in and 2500 out. *)
Lemma ExchangeRate_parses_best_route_witness :
  fst (Part001.ExchangeRate Scenario.InAmount Scenario.OutAmount
         Scenario.first_route
         (Scenario.quote_env
            [ {| Scenario.InAmount := "1000"; Scenario.OutAmount := "2500" |} ])
         Scenario.rate_params (Scenario.start Part001.NewJupag))
  = ({| rate_InputMint := "SOL"; rate_OutputMint := "USDC";
        rate_InAmount := 1000; rate_OutAmount := 2500 |}, None).
Proof.
  set (r := {| Scenario.InAmount := "1000"; Scenario.OutAmount := "2500" |}).
  set (σ := Scenario.start Part001.NewJupag).
  set (q := {| Part001.InputMint := er_InputMint Scenario.rate_params;
               Part001.OutputMint := er_OutputMint Scenario.rate_params;
               Part001.Amount := er_Amount Scenario.rate_params;
               Part001.FeeBps := 0;
               Part001.SwapMode := er_SwapMode Scenario.rate_params;
               Part001.OnlyDirectRoutes := false |}).
  assert (Part001.Quote (Scenario.quote_env [r]) q σ
          = ((make_slice [r], None),
             snd (Part001.Quote (Scenario.quote_env [r]) q σ))) as HQ
    by (vm_compute; reflexivity).
  assert (Scenario.first_route (make_slice [r]) = (r, None)) as HB
    by reflexivity.
  rewrite (proj1 (ExchangeRate_parses_best_route
                    Scenario.InAmount Scenario.OutAmount Scenario.first_route
                    (Scenario.quote_env [r]) Scenario.rate_params
                    σ _ (make_slice [r]) r HQ HB)
             1000%Z 2500%Z);
    [reflexivity | reflexivity | reflexivity | reflexivity | reflexivity].
Defined.

(** One route whose in amount is one below the least 64-bit signed
    integer: [ParseInt] reports a range error, so [ExchangeRate] fails
    where the unbounded reading promises [2^63 - 1]. *)
Lemma wraps_every_negative_amount_counterexample :
  ¬ wraps_every_negative_amount.
Proof.
  intros H.
  set (r := {| Scenario.InAmount := "-9223372036854775809";
               Scenario.OutAmount := "2500" |}).
  set (σ := Scenario.start (Struct := Part001.Struct Scenario.Route)
              Part001.NewJupag).
  set (q := {| Part001.InputMint := er_InputMint Scenario.rate_params;
               Part001.OutputMint := er_OutputMint Scenario.rate_params;
               Part001.Amount := er_Amount Scenario.rate_params;
               Part001.FeeBps := 0;
               Part001.SwapMode := er_SwapMode Scenario.rate_params;
               Part001.OnlyDirectRoutes := false |}).
  assert (Part001.Quote (Scenario.quote_env [r]) q σ
          = ((make_slice [r], None),
             snd (Part001.Quote (Scenario.quote_env [r]) q σ))) as HQ
    by (vm_compute; reflexivity).
  specialize (H Scenario.Route Scenario.InAmount Scenario.OutAmount
                Scenario.first_route (Scenario.quote_env [r])
                Scenario.rate_params σ _ (make_slice [r]) r
                "9223372036854775809" 9223372036854775809%Z 2500%Z
                HQ eq_refl eq_refl eq_refl ltac:(lia) eq_refl).
  apply (f_equal (λ out, snd (fst out))) in H.
  vm_compute in H. discriminate H.
Qed.

(** [C7] (amended) The amounts are parsed as signed 64-bit integers and
    converted to [uint64]: a best route whose amount string is a minus sign
    and the decimal digits of [n], with [n] at most [2^63], yields the
    amount [2^64 - n] and no error when the other amount parses, and a
    decimal amount string of value [2^63] or more yields the range error
    of the parse. *)
Theorem ExchangeRate_signed_parse {Route : Type}
    (InAmt OutAmt : Route → string)
    (GetBestRoute : Part001.QuoteResponse Route → Route * option error)
    (env : Env (Part001.Struct Route) (Part001.QuoteResponse Route))
    (params : ExchangeRateParams) (σ σ' : Store (Part001.Struct Route))
    (routes : Part001.QuoteResponse Route) (route : Route) :
  Part001.Quote env
    {| Part001.InputMint := er_InputMint params;
       Part001.OutputMint := er_OutputMint params;
       Part001.Amount := er_Amount params;
       Part001.FeeBps := 0;
       Part001.SwapMode := er_SwapMode params;
       Part001.OnlyDirectRoutes := false |} σ = ((routes, None), σ') →
  GetBestRoute routes = (route, None) →
  let zero_rate := {| rate_InputMint := er_InputMint params;
                      rate_OutputMint := er_OutputMint params;
                      rate_InAmount := 0; rate_OutAmount := 0 |} in
  (∀ (ds : string) (n b : Z),
      InAmt route = String "-" ds → strconv.decimal ds = Some n →
      (0 < n <= two63)%Z →
      strconv.ParseInt (OutAmt route) 10 64 = (b, None) →
      Part001.ExchangeRate InAmt OutAmt GetBestRoute env params σ
      = (({| rate_InputMint := er_InputMint params;
             rate_OutputMint := er_OutputMint params;
             rate_InAmount := (two64 - n)%Z;
             rate_OutAmount := to_uint64 b |}, None), σ'))
  ∧ (∀ (ds : string) (n a : Z),
        OutAmt route = String "-" ds → strconv.decimal ds = Some n →
        (0 < n <= two63)%Z →
        strconv.ParseInt (InAmt route) 10 64 = (a, None) →
        Part001.ExchangeRate InAmt OutAmt GetBestRoute env params σ
        = (({| rate_InputMint := er_InputMint params;
               rate_OutputMint := er_OutputMint params;
               rate_InAmount := to_uint64 a;
               rate_OutAmount := (two64 - n)%Z |}, None), σ'))
  ∧ (∀ n : Z,
        strconv.decimal (InAmt route) = Some n → (two63 <= n)%Z →
        Part001.ExchangeRate InAmt OutAmt GetBestRoute env params σ
        = ((zero_rate,
            Some (wrapError "failed to parse in amount"
                    (NumError "ParseInt" (InAmt route) ErrRange))), σ'))
  ∧ (∀ n a : Z,
        strconv.decimal (OutAmt route) = Some n → (two63 <= n)%Z →
        strconv.ParseInt (InAmt route) 10 64 = (a, None) →
        Part001.ExchangeRate InAmt OutAmt GetBestRoute env params σ
        = ((zero_rate,
            Some (wrapError "failed to parse out amount"
                    (NumError "ParseInt" (OutAmt route) ErrRange))), σ')).
Proof.
  intros HQ HB zero_rate. subst zero_rate.
  rewrite (ExchangeRate_after_quote InAmt OutAmt GetBestRoute env params
             σ σ' routes route HQ HB). cbv zeta.
  split; [|split; [|split]].
  - intros ds n b Hin Hds Hn Hout.
    rewrite Hin, (ParseInt_negative ds n Hds ltac:(lia)), Hout.
    rewrite (to_uint64_neg n) by (unfold two63, two64 in *; lia).
    reflexivity.
  - intros ds n a Hout Hds Hn Hin.
    rewrite Hin, Hout, (ParseInt_negative ds n Hds ltac:(lia)).
    rewrite (to_uint64_neg n) by (unfold two63, two64 in *; lia).
    reflexivity.
  - intros n Hin Hn.
    rewrite (ParseInt_decimal_range _ n Hin Hn). reflexivity.
  - intros n a Hout Hn Hin.
    rewrite Hin, (ParseInt_decimal_range _ n Hout Hn). reflexivity.
Qed.

(** One route, 5 below zero in and 2500 out. *)
Lemma ExchangeRate_signed_parse_witness :
  fst (Part001.ExchangeRate Scenario.InAmount Scenario.OutAmount
         Scenario.first_route
         (Scenario.quote_env
            [ {| Scenario.InAmount := "-5"; Scenario.OutAmount := "2500" |} ])
         Scenario.rate_params (Scenario.start Part001.NewJupag))
  = ({| rate_InputMint := "SOL"; rate_OutputMint := "USDC";
        rate_InAmount := 18446744073709551611; rate_OutAmount := 2500 |}, None).
Proof.
  set (r := {| Scenario.InAmount := "-5"; Scenario.OutAmount := "2500" |}).
  set (σ := Scenario.start Part001.NewJupag).
  set (q := {| Part001.InputMint := er_InputMint Scenario.rate_params;
               Part001.OutputMint := er_OutputMint Scenario.rate_params;
               Part001.Amount := er_Amount Scenario.rate_params;
               Part001.FeeBps := 0;
               Part001.SwapMode := er_SwapMode Scenario.rate_params;
               Part001.OnlyDirectRoutes := false |}).
  assert (Part001.Quote (Scenario.quote_env [r]) q σ
          = ((make_slice [r], None),
             snd (Part001.Quote (Scenario.quote_env [r]) q σ))) as HQ
    by (vm_compute; reflexivity).
  assert (Scenario.first_route (make_slice [r]) = (r, None)) as HB
    by reflexivity.
  rewrite (proj1 (ExchangeRate_signed_parse
                    Scenario.InAmount Scenario.OutAmount Scenario.first_route
                    (Scenario.quote_env [r]) Scenario.rate_params
                    σ _ (make_slice [r]) r HQ HB)
             "5" 5%Z 2500%Z);
    [reflexivity | reflexivity | reflexivity | unfold two63; lia | reflexivity].
Defined.

(** ** The store: what a call leaves untouched *)

Section frame.
Context {Struct QuoteT : Type} (env : Env Struct QuoteT).

Lemma preserves_ret {A} (a : A) : preserves_client (ret (Struct := Struct) a).
Proof. intros σ. reflexivity. Qed.

Lemma preserves_bind {A B} (m : M Struct A) (k : A → M Struct B) :
  preserves_client m → (∀ a, preserves_client (k a)) →
  preserves_client (bind m k).
Proof.
  intros Hm Hk σ. unfold bind. specialize (Hm σ).
  destruct (m σ) as [a σ1]. cbn in Hm. rewrite <- Hm. apply Hk.
Qed.

Lemma preserves_self : preserves_client (self (Struct := Struct)).
Proof. intros σ. reflexivity. Qed.

Lemma preserves_log (e : Event Struct) : preserves_client (log e).
Proof. intros σ. reflexivity. Qed.

Lemma preserves_Do (cl : httpclient.Client) (req : Request) :
  preserves_client (Do env cl req).
Proof. intros σ. reflexivity. Qed.
End frame.

Create HintDb frame.
#[local] Hint Resolve preserves_ret preserves_self preserves_log preserves_Do
  : frame.

(** Walks a method: binds, branches, and the primitives of the database. *)
Ltac frame :=
  repeat first
    [ solve [auto with frame]
    | apply preserves_bind; [|intros ?]
    | case_match ].

Section frame_library.
Context {Struct QuoteT : Type} (env : Env Struct QuoteT).

Lemma preserves_Encode uv : preserves_client (Encode env uv).
Proof. unfold Encode. frame. Qed.

Lemma preserves_Marshal body : preserves_client (Marshal env body).
Proof. unfold Marshal. frame. Qed.

Lemma preserves_DecodeResponse body : preserves_client (DecodeResponse env body).
Proof. unfold DecodeResponse. frame. Qed.

Lemma preserves_DecodeSwapResponse body :
  preserves_client (DecodeSwapResponse env body).
Proof. unfold DecodeSwapResponse. frame. Qed.

Lemma preserves_DecodeIndexedRoutesMap body :
  preserves_client (DecodeIndexedRoutesMap env body).
Proof. unfold DecodeIndexedRoutesMap. frame. Qed.

Lemma preserves_UnmarshalQuoteResponse data :
  preserves_client (UnmarshalQuoteResponse env data).
Proof. unfold UnmarshalQuoteResponse. frame. Qed.

Lemma preserves_UnmarshalPriceMap data :
  preserves_client (UnmarshalPriceMap env data).
Proof. unfold UnmarshalPriceMap. frame. Qed.
End frame_library.

#[local] Hint Resolve preserves_Encode preserves_Marshal
  preserves_DecodeResponse preserves_DecodeSwapResponse
  preserves_DecodeIndexedRoutesMap preserves_UnmarshalQuoteResponse
  preserves_UnmarshalPriceMap : frame.

Section frame000.
Context (env : Env Part000.Struct QuoteResponse).

Lemma preserves_request000 method endpoint params body :
  preserves_client (Part000.request env method endpoint params body).
Proof. unfold Part000.request. frame. Qed.

Lemma preserves_parseResponse000 resp :
  preserves_client (Part000.parseResponse env resp).
Proof. unfold Part000.parseResponse. frame. Qed.

Hint Resolve preserves_request000 preserves_parseResponse000 : frame.

Lemma preserves_Quote000 params : preserves_client (Part000.Quote env params).
Proof. unfold Part000.Quote. frame. Qed.

Lemma preserves_Swap000 params : preserves_client (Part000.Swap env params).
Proof. unfold Part000.Swap. frame. Qed.

Lemma preserves_Price000 params : preserves_client (Part000.Price env params).
Proof. unfold Part000.Price. frame. Qed.

Lemma preserves_RoutesMap000 b : preserves_client (Part000.RoutesMap env b).
Proof. unfold Part000.RoutesMap. frame. Qed.

Hint Resolve preserves_Quote000 preserves_Swap000 preserves_Price000
  preserves_RoutesMap000 : frame.

Lemma preserves_exec000 (c : Calls000.Call) :
  preserves_client (Calls000.exec env c).
Proof. destruct c; unfold Calls000.exec; frame. Qed.

Lemma preserves_exec_all000 (cs : list Calls000.Call) :
  preserves_client (Calls000.exec_all env cs).
Proof.
  induction cs as [|c cs IH]; cbn [Calls000.exec_all].
  - apply preserves_ret.
  - apply preserves_bind; [apply preserves_exec000|intros _; exact IH].
Qed.
End frame000.

Section frame001.
Context {Route : Type}.
Context (InAmt OutAmt : Route → string).
Context (GetBestRoute : Part001.QuoteResponse Route → Route * option error).
Context (env : Env (Part001.Struct Route) (Part001.QuoteResponse Route)).

Lemma preserves_request001 method endpoint params body :
  preserves_client (Part001.request env method endpoint params body).
Proof. unfold Part001.request. frame. Qed.

Lemma preserves_parseResponse001 resp :
  preserves_client (Part001.parseResponse env resp).
Proof. unfold Part001.parseResponse. frame. Qed.

Hint Resolve preserves_request001 preserves_parseResponse001 : frame.

Lemma preserves_Quote001 params : preserves_client (Part001.Quote env params).
Proof. unfold Part001.Quote. frame. Qed.

Lemma preserves_Swap001 params : preserves_client (Part001.Swap env params).
Proof. unfold Part001.Swap. frame. Qed.

Lemma preserves_Price001 params : preserves_client (Part001.Price env params).
Proof. unfold Part001.Price. frame. Qed.

Lemma preserves_RoutesMap001 b : preserves_client (Part001.RoutesMap env b).
Proof. unfold Part001.RoutesMap. frame. Qed.

Hint Resolve preserves_Quote001 preserves_Swap001 preserves_Price001
  preserves_RoutesMap001 : frame.

Lemma preserves_BestSwap001 params :
  preserves_client (Part001.BestSwap GetBestRoute env params).
Proof. unfold Part001.BestSwap. frame. Qed.

Lemma preserves_ExchangeRate001 params :
  preserves_client (Part001.ExchangeRate InAmt OutAmt GetBestRoute env params).
Proof. unfold Part001.ExchangeRate. frame. Qed.

Hint Resolve preserves_BestSwap001 preserves_ExchangeRate001 : frame.

Lemma preserves_exec001 (c : Calls001.Call Route) :
  preserves_client (Calls001.exec InAmt OutAmt GetBestRoute env c).
Proof. destruct c; unfold Calls001.exec; frame. Qed.

Lemma preserves_exec_all001 (cs : list (Calls001.Call Route)) :
  preserves_client (Calls001.exec_all InAmt OutAmt GetBestRoute env cs).
Proof.
  induction cs as [|c cs IH]; cbn [Calls001.exec_all].
  - apply preserves_ret.
  - apply preserves_bind; [apply preserves_exec001|intros _; exact IH].
Qed.
End frame001.

(** [C10] The client holds no state that a method changes: each public
    method of either revision, and so every sequence of calls, leaves the
    struct of the receiver (the transport and the five strings) as it was,
    and a call that follows any sequence of calls reads the same struct. *)
Theorem client_struct_unchanged :
  (∀ (env : Env Part000.Struct QuoteResponse) (c : Calls000.Call)
     (cs : list Calls000.Call) (σ : Store Part000.Struct),
      client (snd (Calls000.exec env c σ)) = client σ
      ∧ client (snd (Calls000.exec_all env cs σ)) = client σ
      ∧ fst (self (snd (Calls000.exec_all env cs σ))) = fst (self σ))
  ∧ (∀ (Route : Type) (InAmt OutAmt : Route → string)
       (GetBestRoute : Part001.QuoteResponse Route → Route * option error)
       (env : Env (Part001.Struct Route) (Part001.QuoteResponse Route))
       (c : Calls001.Call Route) (cs : list (Calls001.Call Route))
       (σ : Store (Part001.Struct Route)),
        client (snd (Calls001.exec InAmt OutAmt GetBestRoute env c σ)) = client σ
        ∧ client (snd (Calls001.exec_all InAmt OutAmt GetBestRoute env cs σ))
          = client σ
        ∧ fst (self (snd (Calls001.exec_all InAmt OutAmt GetBestRoute env cs σ)))
          = fst (self σ)).
Proof.
  split.
  - intros env c cs σ. split; [apply preserves_exec000|].
    split; [apply preserves_exec_all000|].
    unfold self. cbn [fst]. apply preserves_exec_all000.
  - intros Route InAmt OutAmt GetBestRoute env c cs σ.
    split; [apply preserves_exec001|].
    split; [apply preserves_exec_all001|].
    unfold self. cbn [fst]. apply preserves_exec_all001.
Qed.

(** [C8] [NewJupag] yields a client of fixed configuration: a constant
    timeout, retry count 1, a constant backoff of 500 milliseconds with
    1000 milliseconds as its second interval, a constant base URL and the
    four paths; no sequence of calls on the client changes them. *)
Theorem NewJupag_fixed_configuration :
  (Part000.NewJupag
   = {| jupagImpl :=
          {| httpclient.timeout := (3000 * time.Millisecond)%Z;
             httpclient.retryCount := 1;
             httpclient.retrier :=
               heimdall.Retrier {| heimdall.backoffInterval := 500;
                                   heimdall.maximumJitterInterval := 1000 |} |};
        apiUrl := "https://quote-proxy.jup.ag";
        quotePath := "/quote"; swapPath := "/swap"; pricePath := "/price";
        routesMapPath := "/indexed-route-map" |})
  ∧ (Part001.NewJupag
     = {| jupagImpl :=
            {| httpclient.timeout := (500 * time.Millisecond)%Z;
               httpclient.retryCount := 1;
               httpclient.retrier :=
                 heimdall.Retrier {| heimdall.backoffInterval := 500;
                                     heimdall.maximumJitterInterval := 1000 |} |};
          apiUrl := "https://price.jup.ag/v6";
          quotePath := "/quote"; swapPath := "/swap"; pricePath := "/price";
          routesMapPath := "/indexed-route-map" |})
  ∧ (∀ (env : Env Part000.Struct QuoteResponse) (cs : list Calls000.Call)
       (events : list (Event Part000.Struct)),
        client (snd (Calls000.exec_all env cs
                       {| client := Part000.NewJupag; trace := events |}))
        = Part000.NewJupag)
  ∧ (∀ (Route : Type) (InAmt OutAmt : Route → string)
       (GetBestRoute : Part001.QuoteResponse Route → Route * option error)
       (env : Env (Part001.Struct Route) (Part001.QuoteResponse Route))
       (cs : list (Calls001.Call Route))
       (events : list (Event (Part001.Struct Route))),
        client (snd (Calls001.exec_all InAmt OutAmt GetBestRoute env cs
                       {| client := Part001.NewJupag; trace := events |}))
        = Part001.NewJupag).
Proof.
  split; [reflexivity|]. split; [reflexivity|]. split.
  - intros env cs events. apply preserves_exec_all000.
  - intros Route InAmt OutAmt GetBestRoute env cs events.
    apply preserves_exec_all001.
Qed.

(** ** The trace: what a call adds *)

Lemma events_since_refl {Struct} (σ : Store Struct) : events_since σ σ = [].
Proof. unfold events_since. apply drop_all. Qed.

Lemma events_since_emit {Struct} (σ σ' : Store Struct) (e : Event Struct) :
  (length (trace σ) <= length (trace σ'))%nat →
  events_since σ (emit e σ') = (events_since σ σ' ++ [e])%list.
Proof. intros H. unfold events_since, emit. cbn [trace]. by rewrite drop_app_le. Qed.

Lemma length_trace_emit {Struct} (σ : Store Struct) (e : Event Struct) :
  length (trace (emit e σ)) = S (length (trace σ)).
Proof. unfold emit. cbn [trace]. rewrite length_app. cbn. lia. Qed.

(** Normalises [events_since σ (emit e1 (emit e2 ... σ))] to a list. *)
Ltac since :=
  repeat first
    [ rewrite events_since_refl
    | rewrite events_since_emit by (rewrite ?length_trace_emit; lia) ];
  cbn [app].

(** Runs the monad: unfolds the library calls down to pairs. *)
Ltac run :=
  repeat progress
    unfold UnmarshalQuoteResponse, UnmarshalPriceMap, DecodeResponse,
           DecodeSwapResponse, DecodeIndexedRoutesMap, Encode, Marshal, Do,
           log, self, bind, ret in *;
  cbn [fst snd] in *.

(** ** [request] and [StructToUrlValues] *)

Lemma set_RawQuery_replaces (q : string) (u : URL) :
  query_replaced q u (set_RawQuery q u).
Proof. unfold query_replaced. cbn. repeat split. Qed.

(** [C4] [request] builds the URL from the endpoint and the parameters:
    every request it hands to the transport has as URL the text of the
    parsed endpoint with its query string replaced by the encoding of
    [StructToUrlValues(params)], every other part of the parsed endpoint
    kept; when the endpoint does not parse or the conversion fails, it
    returns an error and nothing is sent; when every step succeeds, one
    request with that URL is sent.  [StructToUrlValues] fails on nil,
    returns a [url.Values] argument as it is and otherwise converts the
    struct. *)
Theorem request_builds_url (env : Env Part000.Struct QuoteResponse)
    (method endpoint : string) (params body : any Part000.Struct)
    (σ : Store Part000.Struct) :
  let out := Part000.request env method endpoint params body σ in
  (∀ req, EvDo req ∈ events_since σ (snd out) →
     ∃ u uv u',
       url_Parse env endpoint = Ok u
       ∧ utils.StructToUrlValues env params = (uv, None)
       ∧ query_replaced (Values_Encode env uv) u u'
       ∧ RequestURL req = URL_String env u'
       ∧ Method req = method)
  ∧ (∀ e, url_Parse env endpoint = Err e → out = (Err e, σ))
  ∧ (∀ e, snd (utils.StructToUrlValues env params) = Some e →
       ∃ e', out = (Err e', σ))
  ∧ (∀ u uv data,
       url_Parse env endpoint = Ok u →
       utils.StructToUrlValues env params = (uv, None) →
       json_Marshal env body = Ok data →
       (∀ u', query_replaced (Values_Encode env uv) u u' →
              http_NewRequest_check env method (URL_String env u') = None) →
       ∃ req u',
         events_since σ (snd out) = [EvEncode uv; EvMarshal body; EvDo req]
         ∧ query_replaced (Values_Encode env uv) u u'
         ∧ RequestURL req = URL_String env u')
  ∧ (utils.StructToUrlValues env any_nil
     = (∅, Some (errorString "struct is nil")))
  ∧ (∀ uv, utils.StructToUrlValues env (any_Values uv) = (uv, None))
  ∧ (∀ s, utils.StructToUrlValues env (any_struct s)
          = match query_Values env s with
            | Ok uv => (uv, None)
            | Err err =>
                (∅, Some (wrapError "failed to convert struct to url values" err))
            end).
Proof.
  intros out. subst out. unfold Part000.request, NewRequest.
  refine (conj _ (conj _ (conj _ (conj _ (conj _ (conj _ _)))))).
  - intros req.
    destruct (url_Parse env endpoint) as [u|e];
      [|run; since; by intros ?%elem_of_nil].
    destruct (utils.StructToUrlValues env params) as [uv [e|]];
      [run; since; by intros ?%elem_of_nil|].
    run.
    destruct (any_is_nil body), (json_Marshal env body) as [data|e];
      cbn [negb fst snd];
      repeat case_match;
      cbn [fst snd]; since;
      rewrite ?elem_of_cons, ?elem_of_nil;
      intros Hin; destruct_or?; simplify_eq; try done;
      exists u, uv, (set_RawQuery (Values_Encode env uv) u);
      (split; [reflexivity|]); (split; [reflexivity|]);
      (split; [apply set_RawQuery_replaces|]); split; reflexivity.
  - intros e ->. reflexivity.
  - intros e He.
    destruct (url_Parse env endpoint) as [u|e']; [|eauto].
    destruct (utils.StructToUrlValues env params) as [uv [e'|]]; [eauto|].
    discriminate.
  - intros u uv data -> -> HM HN.
    specialize (HN _ (set_RawQuery_replaces (Values_Encode env uv) u)).
    run. rewrite HM, HN.
    destruct (any_is_nil body); cbn [negb fst snd]; since;
      eexists _, (set_RawQuery (Values_Encode env uv) u);
      (split; [reflexivity|]); (split; [apply set_RawQuery_replaces|]);
      reflexivity.
  - reflexivity.
  - reflexivity.
  - intros s. cbn. destruct (query_Values env s); reflexivity.
Qed.

(** A quote request to the quote endpoint: one encoding, one marshalling
    of the nil body, and one request whose URL is the endpoint followed by
    the encoded parameters. *)
Lemma request_builds_url_witness :
  let σ := Scenario.start (Struct := Part000.Struct) Part000.NewJupag in
  let params := any_struct (Part000.S_QuoteParams Scenario.quote_params) in
  ∃ req,
    events_since σ
      (snd (Part000.request Cases.url_env MethodGet Cases.quote_endpoint000
              params any_nil σ))
    = [EvEncode Cases.quote_values; EvMarshal any_nil; EvDo req]
    ∧ RequestURL req
      = "https://quote-proxy.jup.ag/quote?amount=1000&inputMint=SOL&outputMint=USDC".
Proof.
  intros σ params.
  destruct (proj1 (proj2 (proj2 (proj2
              (request_builds_url Cases.url_env MethodGet
                 Cases.quote_endpoint000 params any_nil σ))))
              Cases.quote_url Cases.quote_values "null"
              eq_refl eq_refl eq_refl)
    as (req & u' & Hevents & Hquery & Hurl).
  - intros u' (Hq & Hs & Ho & Hu & Hh & Hp & Hrest). reflexivity.
  - exists req. split; [exact Hevents|].
    destruct Hquery as (Hq & Hs & Ho & Hu & Hh & Hp & Hrest).
    rewrite Hurl. cbn [URL_String Cases.url_env]. unfold Cases.print_url.
    rewrite Hq, Hs, Hh, Hp. reflexivity.
Defined.

(** ** The endpoint methods *)

(** [Swap] hands [request] nil parameters, which [StructToUrlValues]
    rejects: whatever the libraries and the service do, the call ends in
    [request] before anything is encoded, marshalled or sent. *)
Lemma request_nil_params (env : Env Part000.Struct QuoteResponse)
    (method endpoint : string) (body : any Part000.Struct)
    (σ : Store Part000.Struct) :
  ∃ err, Part000.request env method endpoint any_nil body σ = (Err err, σ).
Proof.
  unfold Part000.request.
  destruct (url_Parse env endpoint) as [u|e]; cbn; eauto.
Qed.

(** [C9] What [Swap] does in place of one serialization, one call of the
    transport and one deserialization: for every [SwapParams] it returns
    the error of its failed request and leaves the trace as before the
    call, with nothing serialized, no request passed to the transport's
    [Do] and nothing deserialized. *)
Theorem Swap_stops_before_transport (env : Env Part000.Struct QuoteResponse)
    (params : SwapParams) (σ : Store Part000.Struct) :
  (∃ err,
      Part000.Swap env params σ
      = (("", Some (wrapError "failed to make swap request" err)), σ))
  ∧ events_since σ (snd (Part000.Swap env params σ)) = []
  ∧ List.filter is_EvDo (events_since σ (snd (Part000.Swap env params σ))) = [].
Proof.
  unfold Part000.Swap. run.
  destruct (request_nil_params env MethodPost
              (Sprintf_ss (apiUrl (client σ)) (swapPath (client σ)))
              (any_struct (Part000.S_SwapParams params)) σ) as [err ->].
  cbn [fst snd]. rewrite events_since_refl. eauto.
Qed.

(** The revision of [part_001] has the same [Swap], and with it a
    [BestSwap] that cannot succeed. *)
Lemma Swap001_stops_before_transport {Route : Type}
    (env : Env (Part001.Struct Route) (Part001.QuoteResponse Route))
    (params : Part001.SwapParams Route) (σ : Store (Part001.Struct Route)) :
  ∃ err,
    Part001.Swap env params σ
    = (("", Some (wrapError "failed to make swap request" err)), σ).
Proof.
  unfold Part001.Swap, Part001.request. run.
  destruct (url_Parse env _) as [u|e]; cbn; eauto.
Qed.

Lemma BestSwap_always_fails {Route : Type}
    (GetBestRoute : Part001.QuoteResponse Route → Route * option error)
    (env : Env (Part001.Struct Route) (Part001.QuoteResponse Route))
    (params : BestSwapParams) (σ : Store (Part001.Struct Route)) :
  ∃ err, fst (Part001.BestSwap GetBestRoute env params σ) = ("", Some err).
Proof.
  unfold Part001.BestSwap. unfold bind at 1.
  destruct (Part001.Quote env _ σ) as [[routes [err|]] σ1]; [cbn; eauto|].
  destruct (GetBestRoute routes) as [route [err|]]; [cbn; eauto|].
  unfold bind at 1.
  match goal with
  | |- context [Part001.Swap env ?p σ1] =>
      destruct (Swap001_stops_before_transport env p σ1) as [err ->]
  end.
  cbn. eauto.
Qed.

(** No method calls the transport more than once; a call is preceded by
    one encoding of the parameters and one marshalling of the body and
    followed by at most two decoding steps (the envelope and its data). *)
Lemma get_endpoints_one_Do (env : Env Part000.Struct QuoteResponse)
    (c : Calls000.Call) (σ : Store Part000.Struct) :
  let events := events_since σ (snd (Calls000.exec env c σ)) in
  (length (List.filter is_EvDo events) <= 1)%nat
  ∧ (length (List.filter is_EvEncode events) <= 1)%nat
  ∧ (length (List.filter is_EvMarshal events) <= 1)%nat
  ∧ (length (List.filter is_EvDecode events) <= 2)%nat.
Proof.
  destruct c; cbn [Calls000.exec];
    unfold Part000.Quote, Part000.Swap, Part000.Price, Part000.RoutesMap,
           Part000.parseResponse, Part000.request, NewRequest;
    run; repeat case_match; simplify_eq; cbn [fst snd]; since; cbn; lia.
Qed.

(** ** [parseResponse] and the envelope *)

Lemma parseResponse_cases (env : Env Part000.Struct QuoteResponse)
    (resp : HTTPResponse) (σ : Store Part000.Struct) :
  Part000.parseResponse env resp σ
  = if negb (StatusCode resp =? StatusOK)%Z
    then ((None, Some (unexpected_status (StatusCode resp))), σ)
    else
      match decode_Response env (Body resp) with
      | (_, Some err) =>
          ((None, Some (wrapError "failed to decode response" err)),
           emit (EvDecode TResponse (Body resp)) σ)
      | (response, None) =>
          ((Data response, None), emit (EvDecode TResponse (Body resp)) σ)
      end.
Proof.
  unfold Part000.parseResponse. run.
  destruct (negb _); [reflexivity|].
  destruct (decode_Response env (Body resp)) as [response [err|]]; reflexivity.
Qed.

Lemma Quote_unmarshals_Data (env : Env Part000.Struct QuoteResponse)
    (p : QuoteParams) :
  unmarshals_Data env TQuoteResponse
    (Calls000.request_of env (Calls000.CallQuote p))
    (Calls000.exec env (Calls000.CallQuote p)).
Proof.
  intros σ resp σ1 response Hreq Hst Hdec.
  unfold Calls000.request_of, Calls000.exec, Part000.Quote in *.
  unfold bind at 1 in Hreq. unfold self in Hreq at 1. cbn [fst snd] in Hreq.
  unfold bind at 1. unfold bind at 1. unfold self at 1. cbn [fst snd].
  unfold bind at 1. rewrite Hreq.
  unfold bind at 1. rewrite parseResponse_cases, Hst, Hdec. cbn [negb Z.eqb].
  change (negb (StatusOK =? StatusOK)%Z) with false. cbv iota.
  run.
  destruct (unmarshal_QuoteResponse env (Data response)) as [v [e|]];
    cbn [fst snd]; since; rewrite !elem_of_cons; auto.
Qed.

Lemma Price_unmarshals_Data (env : Env Part000.Struct QuoteResponse)
    (p : PriceParams) :
  unmarshals_Data env TPriceMap
    (Calls000.request_of env (Calls000.CallPrice p))
    (Calls000.exec env (Calls000.CallPrice p)).
Proof.
  intros σ resp σ1 response Hreq Hst Hdec.
  unfold Calls000.request_of, Calls000.exec, Part000.Price in *.
  unfold bind at 1 in Hreq. unfold self in Hreq at 1. cbn [fst snd] in Hreq.
  unfold bind at 1. unfold bind at 1. unfold self at 1. cbn [fst snd].
  unfold bind at 1. rewrite Hreq.
  unfold bind at 1. rewrite parseResponse_cases, Hst, Hdec. cbn [negb Z.eqb].
  change (negb (StatusOK =? StatusOK)%Z) with false. cbv iota.
  run.
  destruct (unmarshal_PriceMap env (Data response)) as [v [e|]];
    cbn [fst snd]; since; rewrite !elem_of_cons; auto.
Qed.

Lemma RoutesMap_after_request (env : Env Part000.Struct QuoteResponse)
    (b : bool) (σ σ1 : Store Part000.Struct) (resp : HTTPResponse) :
  Calls000.request_of env (Calls000.CallRoutesMap b) σ = (Ok resp, σ1) →
  Part000.RoutesMap env b σ
  = (match decode_IndexedRoutesMap env (Body resp) with
     | (_, Some err) =>
         (zero_IndexedRoutesMap,
          Some (wrapError "failed to parse routes map response" err))
     | (routesMap, None) => (routesMap, None)
     end,
     emit (EvDecode TIndexedRoutesMap (Body resp)) σ1).
Proof.
  intros Hreq. unfold Calls000.request_of, Part000.RoutesMap in *.
  unfold bind at 1 in Hreq. unfold self in Hreq at 1. cbn [fst snd] in Hreq.
  unfold bind at 1. unfold self at 1. cbn [fst snd].
  unfold bind at 1. rewrite Hreq. run.
  destruct (decode_IndexedRoutesMap env (Body resp)) as [m [e|]]; reflexivity.
Qed.

Lemma RoutesMap_no_envelope (env : Env Part000.Struct QuoteResponse)
    (b : bool) (σ : Store Part000.Struct) :
  List.filter is_envelope_decode
    (events_since σ (snd (Part000.RoutesMap env b σ))) = [].
Proof.
  unfold Part000.RoutesMap, Part000.request, NewRequest.
  run; repeat case_match; simplify_eq; cbn [fst snd]; since; reflexivity.
Qed.

(** The scenario of the route map endpoint: the response is a 200 whose
    body decodes as an envelope, and [RoutesMap] returns the route map
    decoded from the body, with no [Unmarshal] of the envelope's data. *)
Lemma endpoints_unmarshal_Data_counterexample :
  ¬ (∀ (env : Env Part000.Struct QuoteResponse) (c : Calls000.Call),
       unmarshals_Data env (Calls000.target_of c)
         (Calls000.request_of env c) (Calls000.exec env c)).
Proof.
  intros H.
  set (σ := Scenario.start (Struct := Part000.Struct) Part000.NewJupag).
  set (c := Calls000.CallRoutesMap true).
  set (resp := {| StatusCode := 200; Body := Scenario.route_map_body |}).
  specialize (H Scenario.route_map_env c σ resp
                (snd (Calls000.request_of Scenario.route_map_env c σ))
                zero_Response eq_refl eq_refl eq_refl).
  assert (events_since
            (snd (Calls000.request_of Scenario.route_map_env c σ))
            (snd (Calls000.exec Scenario.route_map_env c σ))
          = [EvDecode TIndexedRoutesMap Scenario.route_map_body]) as Heq
    by reflexivity.
  rewrite Heq in H. apply list_elem_of_singleton in H. discriminate H.
Qed.

(** [Quote] and [Price] after a 200 response whose envelope decodes: the
    result is what [Unmarshal] makes of the [Data] field. *)
Lemma Quote_after_envelope (env : Env Part000.Struct QuoteResponse)
    (p : QuoteParams) (σ σ1 : Store Part000.Struct) (resp : HTTPResponse)
    (response : Response) :
  Calls000.request_of env (Calls000.CallQuote p) σ = (Ok resp, σ1) →
  StatusCode resp = StatusOK →
  decode_Response env (Body resp) = (response, None) →
  Part000.Quote env p σ
  = ((fst (unmarshal_QuoteResponse env (Data response)),
      option_map (wrapError "failed to parse quote response")
        (snd (unmarshal_QuoteResponse env (Data response)))),
     emit (EvUnmarshal TQuoteResponse (Data response))
       (emit (EvDecode TResponse (Body resp)) σ1)).
Proof.
  intros Hreq Hst Hdec.
  unfold Calls000.request_of, Part000.Quote in *.
  unfold bind at 1 in Hreq. unfold self in Hreq at 1. cbn [fst snd] in Hreq.
  unfold bind at 1. unfold self at 1. cbn [fst snd].
  unfold bind at 1. rewrite Hreq.
  unfold bind at 1. rewrite parseResponse_cases, Hst, Hdec.
  change (negb (StatusOK =? StatusOK)%Z) with false. cbv iota.
  run. destruct (unmarshal_QuoteResponse env (Data response)) as [quote [e|]];
    reflexivity.
Qed.

Lemma Price_after_envelope (env : Env Part000.Struct QuoteResponse)
    (p : PriceParams) (σ σ1 : Store Part000.Struct) (resp : HTTPResponse)
    (response : Response) :
  Calls000.request_of env (Calls000.CallPrice p) σ = (Ok resp, σ1) →
  StatusCode resp = StatusOK →
  decode_Response env (Body resp) = (response, None) →
  Part000.Price env p σ
  = ((match snd (unmarshal_PriceMap env (Data response)) with
      | None => fst (unmarshal_PriceMap env (Data response))
      | Some _ => None
      end,
      option_map (wrapError "failed to parse price response")
        (snd (unmarshal_PriceMap env (Data response)))),
     emit (EvUnmarshal TPriceMap (Data response))
       (emit (EvDecode TResponse (Body resp)) σ1)).
Proof.
  intros Hreq Hst Hdec.
  unfold Calls000.request_of, Part000.Price in *.
  unfold bind at 1 in Hreq. unfold self in Hreq at 1. cbn [fst snd] in Hreq.
  unfold bind at 1. unfold self at 1. cbn [fst snd].
  unfold bind at 1. rewrite Hreq.
  unfold bind at 1. rewrite parseResponse_cases, Hst, Hdec.
  change (negb (StatusOK =? StatusOK)%Z) with false. cbv iota.
  run. destruct (unmarshal_PriceMap env (Data response)) as [price [e|]];
    reflexivity.
Qed.

(** [C2] (amended) [parseResponse] returns an error exactly when the
    status is not 200 or the body does not decode as the envelope, and
    otherwise returns the [Data] field of the envelope; [Quote] and [Price]
    then unmarshal that [Data] into their result: what they return is what
    [Unmarshal] makes of it.  [RoutesMap] and [Swap] never decode an
    envelope: [RoutesMap] decodes the body of a 200 response itself. *)
Theorem parseResponse_envelope (env : Env Part000.Struct QuoteResponse) :
  (∀ (resp : HTTPResponse) (σ : Store Part000.Struct),
      let out := fst (Part000.parseResponse env resp σ) in
      (snd out ≠ None
       ↔ StatusCode resp ≠ StatusOK
         ∨ snd (decode_Response env (Body resp)) ≠ None)
      ∧ (snd out = None
         → fst out = Data (fst (decode_Response env (Body resp)))))
  ∧ (∀ p, unmarshals_Data env TQuoteResponse
            (Calls000.request_of env (Calls000.CallQuote p))
            (Calls000.exec env (Calls000.CallQuote p)))
  ∧ (∀ p, unmarshals_Data env TPriceMap
            (Calls000.request_of env (Calls000.CallPrice p))
            (Calls000.exec env (Calls000.CallPrice p)))
  ∧ (∀ p σ σ1 resp response,
        Calls000.request_of env (Calls000.CallQuote p) σ = (Ok resp, σ1) →
        StatusCode resp = StatusOK →
        decode_Response env (Body resp) = (response, None) →
        (∀ quote,
            unmarshal_QuoteResponse env (Data response) = (quote, None) →
            fst (Part000.Quote env p σ) = (quote, None))
        ∧ (∀ quote err,
              unmarshal_QuoteResponse env (Data response) = (quote, Some err) →
              fst (Part000.Quote env p σ)
              = (quote,
                 Some (wrapError "failed to parse quote response" err)))
        ∧ snd (Part000.Quote env p σ)
          = emit (EvUnmarshal TQuoteResponse (Data response))
              (emit (EvDecode TResponse (Body resp)) σ1))
  ∧ (∀ p σ σ1 resp response,
        Calls000.request_of env (Calls000.CallPrice p) σ = (Ok resp, σ1) →
        StatusCode resp = StatusOK →
        decode_Response env (Body resp) = (response, None) →
        (∀ price,
            unmarshal_PriceMap env (Data response) = (price, None) →
            fst (Part000.Price env p σ) = (price, None))
        ∧ (∀ price err,
              unmarshal_PriceMap env (Data response) = (price, Some err) →
              fst (Part000.Price env p σ)
              = (None,
                 Some (wrapError "failed to parse price response" err)))
        ∧ snd (Part000.Price env p σ)
          = emit (EvUnmarshal TPriceMap (Data response))
              (emit (EvDecode TResponse (Body resp)) σ1))
  ∧ (∀ b σ, List.filter is_envelope_decode
              (events_since σ (snd (Part000.RoutesMap env b σ))) = [])
  ∧ (∀ p σ, List.filter is_envelope_decode
              (events_since σ (snd (Part000.Swap env p σ))) = [])
  ∧ (∀ b σ σ1 resp routesMap,
        Calls000.request_of env (Calls000.CallRoutesMap b) σ = (Ok resp, σ1) →
        StatusCode resp = StatusOK →
        decode_IndexedRoutesMap env (Body resp) = (routesMap, None) →
        fst (Part000.RoutesMap env b σ) = (routesMap, None)).
Proof.
  refine (conj _ (conj _ (conj _ (conj _ (conj _ (conj _ (conj _ _))))))).
  - intros resp σ out. subst out. rewrite parseResponse_cases.
    destruct (StatusCode resp =? StatusOK)%Z eqn:Hst; cbn [negb fst snd].
    + apply Z.eqb_eq in Hst.
      destruct (decode_Response env (Body resp)) as [response [err|]];
        cbn [fst snd]; split; try done; try tauto.
      split; [intros _; right; done|done].
    + apply Z.eqb_neq in Hst. split; [|done]. split; [auto|done].
  - apply Quote_unmarshals_Data.
  - apply Price_unmarshals_Data.
  - intros p σ σ1 resp response Hreq Hst Hdec.
    rewrite (Quote_after_envelope env p σ σ1 resp response Hreq Hst Hdec).
    cbn [fst snd]. split; [|split; [|reflexivity]].
    + intros quote ->. reflexivity.
    + intros quote err ->. reflexivity.
  - intros p σ σ1 resp response Hreq Hst Hdec.
    rewrite (Price_after_envelope env p σ σ1 resp response Hreq Hst Hdec).
    cbn [fst snd]. split; [|split; [|reflexivity]].
    + intros price ->. reflexivity.
    + intros price err ->. reflexivity.
  - apply RoutesMap_no_envelope.
  - intros p σ. unfold Part000.Swap. run.
    destruct (request_nil_params env MethodPost
                (Sprintf_ss (apiUrl (client σ)) (swapPath (client σ)))
                (any_struct (Part000.S_SwapParams p)) σ) as [err ->].
    cbn [fst snd]. rewrite events_since_refl. reflexivity.
  - intros b σ σ1 resp routesMap Hreq _ Hdec.
    rewrite (RoutesMap_after_request env b σ σ1 resp Hreq), Hdec. reflexivity.
Qed.

(** A quote answered with a 200 and an envelope: [Quote] returns the quote
    unmarshalled from the [Data] of the envelope. *)
Lemma parseResponse_envelope_witness :
  let σ := Scenario.start (Struct := Part000.Struct) Part000.NewJupag in
  fst (Part000.Quote Cases.quoted_env Scenario.quote_params σ)
  = (Cases.a_quote, None).
Proof.
  intros σ.
  apply (proj1 (proj1 (proj2 (proj2 (proj2
            (parseResponse_envelope Cases.quoted_env))))
            Scenario.quote_params σ
            (snd (Calls000.request_of Cases.quoted_env
                    (Calls000.CallQuote Scenario.quote_params) σ))
            {| StatusCode := 200; Body := "<envelope>" |}
            {| Data := Some "<quote>"; TimeTaken := 0%Z; ContextSlot := 7%Z |}
            eq_refl eq_refl eq_refl)
         Cases.a_quote eq_refl).
Defined.

(** * Further properties of the code *)

Ltac unfold_methods :=
  unfold Part000.Quote, Part000.Swap, Part000.Price, Part000.RoutesMap,
         Part000.parseResponse, Part000.request,
         Part001.Quote, Part001.Swap, Part001.Price, Part001.RoutesMap,
         Part001.BestSwap, Part001.ExchangeRate,
         Part001.parseResponse, Part001.request, NewRequest in *.

(** Closes [∃ evs, trace σ' = trace σ ++ evs ∧ ...] once [σ'] is explicit. *)
Ltac appended :=
  unfold emit; cbn [fst snd trace]; rewrite <- ?app_assoc; cbn [app];
  first [ exists []; split; [symmetry; apply app_nil_r | cbn; lia]
        | eexists; split; [reflexivity | cbn; lia] ].

(** ** [GetRoutesForMint]: what comes back *)

Lemma collect_shape keys : ∀ idxs acc res,
  GetRoutesForMint_collect keys idxs acc = Returns res →
  ∃ l, res = (acc ++ l)%list ∧ length l = length idxs
       ∧ Forall (λ x, x ∈ keys) l.
Proof.
  induction idxs as [|k idxs IH]; intros acc res H; cbn in H.
  - injection H as <-. exists []. rewrite app_nil_r. auto.
  - destruct (index keys k) as [s|] eqn:Hk; [|discriminate].
    destruct (IH _ _ H) as (l & -> & Hlen & Hall).
    exists (s :: l). rewrite <- app_assoc. split; [reflexivity|].
    split; [cbn; lia|]. constructor; [|exact Hall].
    unfold index in Hk. destruct (0 <=? k)%Z; [|discriminate].
    apply list_elem_of_lookup. eauto.
Qed.

(** [X1] Whenever [GetRoutesForMint] returns, the slice is not nil, every
    route in it is one of the mint keys, and there are as many routes as
    indices stored for the last position of the mint. *)
Theorem GetRoutesForMint_routes_are_mint_keys (r : IndexedRoutesMap)
    (mint : string) (s : slice string) :
  GetRoutesForMint r mint = Returns s →
  is_nil_slice s = false
  ∧ Forall (λ route, route ∈ MintKeys r) (slice_elems s)
  ∧ (∀ i, last_position (MintKeys r) mint i →
          length (slice_elems s)
          = length (default []
                      (IndexedRouteMap r !! strconv.Itoa (Z.of_nat i)))).
Proof.
  unfold GetRoutesForMint. intros H.
  destruct (GetRoutesForMint_collect _ _ _) as [res|p] eqn:E; [|discriminate].
  injection H as <-. cbn [is_nil_slice slice_elems].
  pose proof (collect_shape _ _ _ _ E) as (l & -> & Hlen & Hall).
  cbn [app]. split; [reflexivity|]. split; [exact Hall|].
  intros i Hlast. rewrite (find_last _ _ _ 0 [] i Hlast) in Hlen. exact Hlen.
Qed.

Lemma GetRoutesForMint_routes_are_mint_keys_witness :
  let r := {| MintKeys := ["A"; "B"; "A"];
              IndexedRouteMap := {[ "0" := [1%Z]; "2" := [1%Z; 0%Z; 2%Z] ]} |} in
  let s := make_slice ["B"; "A"; "A"] in
  is_nil_slice s = false
  ∧ Forall (λ route, route ∈ MintKeys r) (slice_elems s)
  ∧ (∀ i, last_position (MintKeys r) "A" i →
          length (slice_elems s)
          = length (default []
                      (IndexedRouteMap r !! strconv.Itoa (Z.of_nat i)))).
Proof.
  intros r s. apply (GetRoutesForMint_routes_are_mint_keys r "A" s).
  reflexivity.
Defined.

Lemma find_foreign_key irm mint k v : ∀ rest key acc,
  (∀ j, (key <= j < key + length rest)%nat → k ≠ strconv.Itoa (Z.of_nat j)) →
  GetRoutesForMint_find (<[k := v]> irm) mint key rest acc
  = GetRoutesForMint_find irm mint key rest acc.
Proof.
  induction rest as [|val rest IH]; intros key acc Hk; cbn; [reflexivity|].
  rewrite lookup_insert_ne by (apply Hk; cbn; lia).
  apply IH. intros j Hj. apply Hk. cbn. lia.
Qed.

(** [X2] An entry of the route map stored under a key that is not the
    decimal text of a position of [MintKeys] is never read: adding or
    changing it changes the result for no mint. *)
Theorem GetRoutesForMint_ignores_foreign_keys (keys : list string)
    (irm : gmap string (list Z)) (k : string) (v : list Z) (mint : string) :
  (∀ j, (j < length keys)%nat → k ≠ strconv.Itoa (Z.of_nat j)) →
  GetRoutesForMint {| MintKeys := keys; IndexedRouteMap := <[k := v]> irm |} mint
  = GetRoutesForMint {| MintKeys := keys; IndexedRouteMap := irm |} mint.
Proof.
  intros Hk. unfold GetRoutesForMint. cbn [MintKeys IndexedRouteMap].
  rewrite find_foreign_key; [reflexivity|].
  intros j Hj. apply Hk. lia.
Qed.

(** The key ["01"] is not the text of position 1. *)
Lemma GetRoutesForMint_ignores_foreign_keys_witness :
  GetRoutesForMint
    {| MintKeys := ["A"; "B"];
       IndexedRouteMap := <["01" := [7%Z]]> {[ "1" := [0%Z] ]} |} "B"
  = GetRoutesForMint
      {| MintKeys := ["A"; "B"]; IndexedRouteMap := {[ "1" := [0%Z] ]} |} "B".
Proof.
  apply GetRoutesForMint_ignores_foreign_keys.
  intros j Hj. destruct j as [|[|j]]; [discriminate|discriminate|cbn in Hj; lia].
Defined.

(** [X3] When the route map has no entry for the last position of the
    mint, [GetRoutesForMint] returns an empty slice, whatever is stored for
    earlier positions of the same mint. *)
Theorem GetRoutesForMint_missing_entry (r : IndexedRoutesMap) (mint : string)
    (i : nat) :
  last_position (MintKeys r) mint i →
  IndexedRouteMap r !! strconv.Itoa (Z.of_nat i) = None →
  GetRoutesForMint r mint = Returns (make_slice []).
Proof.
  intros Hlast Hnone. unfold GetRoutesForMint.
  rewrite (find_last _ _ _ 0 [] i Hlast). cbn [Nat.add]. rewrite Hnone.
  reflexivity.
Qed.

(** The mint ["A"] at positions 0 and 2, with an entry for position 0
    only. *)
Lemma GetRoutesForMint_missing_entry_witness :
  GetRoutesForMint
    {| MintKeys := ["A"; "B"; "A"]; IndexedRouteMap := {[ "0" := [1%Z] ]} |} "A"
  = Returns (make_slice []).
Proof.
  apply (GetRoutesForMint_missing_entry _ _ 2).
  - split; [reflexivity|]. intros j Hj.
    destruct j as [|[|[|j]]]; try lia; cbn; discriminate.
  - reflexivity.
Defined.

(** ** [request]: when and what it sends *)

(** [X4] [request] of [part_000] calls the transport at most once, and
    exactly once when the endpoint parses, the parameters convert, the body
    is nil or marshals, and [http.NewRequest] accepts the method and the
    URL; in every other case nothing is sent. *)
Theorem request_sends_iff (env : Env Part000.Struct QuoteResponse)
    (method endpoint : string) (params body : any Part000.Struct)
    (σ : Store Part000.Struct) :
  let out := Part000.request env method endpoint params body σ in
  let sent := List.filter is_EvDo (events_since σ (snd out)) in
  (length sent <= 1)%nat
  ∧ (length sent = 1%nat
     ↔ ∃ u uv,
         url_Parse env endpoint = Ok u
         ∧ utils.StructToUrlValues env params = (uv, None)
         ∧ (any_is_nil body = true ∨ ∃ data, json_Marshal env body = Ok data)
         ∧ http_NewRequest_check env method
             (URL_String env (set_RawQuery (Values_Encode env uv) u)) = None).
Proof.
  intros out sent. subst out sent. unfold Part000.request, NewRequest.
  destruct (url_Parse env endpoint) as [u|e].
  2:{ run. since. cbn. split; [lia|]. split; [lia|].
      intros (u & uv & H & _). discriminate. }
  destruct (utils.StructToUrlValues env params) as [uv [e|]].
  { run. since. cbn. split; [lia|]. split; [lia|].
    intros (u' & uv' & _ & H & _). discriminate. }
  run.
  destruct (any_is_nil body) eqn:Hnil, (json_Marshal env body) as [data|e] eqn:HM;
    cbn [negb fst snd];
    destruct (http_NewRequest_check env method
                (URL_String env (set_RawQuery (Values_Encode env uv) u))) eqn:HN;
    cbn [fst snd]; since; cbn; (split; [lia|]); split; try lia; try done.
  all: try (intros _; exists u, uv; repeat split; eauto; fail).
  all: intros (u' & uv' & Hu & Huv & Hbody & Hreq); simplify_eq;
       try congruence.
  all: destruct Hbody as [|[d Hd]]; congruence.
Qed.

(** [X5] Every request that [request] of [part_000] hands to the transport
    carries the one header [Cache-Control: no-cache] and the marshalled
    body, and [request] returns what the transport answers to it, value or
    error, as it is. *)
Theorem request_hands_over (env : Env Part000.Struct QuoteResponse)
    (method endpoint : string) (params body : any Part000.Struct)
    (σ : Store Part000.Struct) (req : Request) :
  let out := Part000.request env method endpoint params body σ in
  EvDo req ∈ events_since σ (snd out) →
  Header req = {[ "Cache-Control" := ["no-cache"] ]}
  ∧ RequestBody req
    = match json_Marshal env body with Ok data => Some data | Err _ => None end
  ∧ ∃ uv,
      utils.StructToUrlValues env params = (uv, None)
      ∧ fst out
        = httpclient_Do env (jupagImpl (client σ))
            (trace σ ++ [EvEncode uv; EvMarshal body]) req.
Proof.
  intros out. subst out. unfold Part000.request, NewRequest.
  destruct (url_Parse env endpoint) as [u|e];
    [|run; since; by intros ?%elem_of_nil].
  destruct (utils.StructToUrlValues env params) as [uv [e|]];
    [run; since; by intros ?%elem_of_nil|].
  run.
  destruct (any_is_nil body), (json_Marshal env body) as [data|e];
    cbn [negb fst snd]; repeat case_match; cbn [fst snd]; since;
    rewrite ?elem_of_cons, ?elem_of_nil;
    intros Hin; destruct_or?; simplify_eq; try done;
    (split; [reflexivity|]); (split; [reflexivity|]);
    exists uv; (split; [reflexivity|]);
    unfold emit; cbn [trace]; rewrite <- app_assoc; reflexivity.
Qed.

Lemma request_hands_over_witness :
  let env := Scenario.route_map_env in
  let σ := Scenario.start (Struct := Part000.Struct) Part000.NewJupag in
  let params := any_struct (Part000.S_QuoteParams Scenario.quote_params) in
  let out :=
    Part000.request env MethodGet Cases.quote_endpoint000 params any_nil σ in
  Header Cases.quote_request000 = {[ "Cache-Control" := ["no-cache"] ]}
  ∧ RequestBody Cases.quote_request000
    = match json_Marshal env any_nil with
      | Ok data => Some data | Err _ => None end
  ∧ ∃ uv,
      utils.StructToUrlValues env params = (uv, None)
      ∧ fst out
        = httpclient_Do env (jupagImpl (client σ))
            (trace σ ++ [EvEncode uv; EvMarshal any_nil])
            Cases.quote_request000.
Proof.
  intros env σ params out.
  apply (request_hands_over env MethodGet Cases.quote_endpoint000 params
           any_nil σ Cases.quote_request000).
  apply list_elem_of_In. vm_compute. right. right. left. reflexivity.
Defined.

(** [X6] Every request that [request] of [part_001] hands to the transport
    has no header, the method asked for, the URL built from the endpoint
    and the parameters, and the marshalled body; [request] returns what the
    transport answers to it as it is. *)
Theorem request001_hands_over {Route : Type}
    (env : Env (Part001.Struct Route) (Part001.QuoteResponse Route))
    (method endpoint : string) (params body : any (Part001.Struct Route))
    (σ : Store (Part001.Struct Route)) (req : Request) :
  let out := Part001.request env method endpoint params body σ in
  EvDo req ∈ events_since σ (snd out) →
  Header req = ∅
  ∧ Method req = method
  ∧ RequestBody req
    = match json_Marshal env body with Ok data => Some data | Err _ => None end
  ∧ ∃ u uv,
      url_Parse env endpoint = Ok u
      ∧ utils.StructToUrlValues env params = (uv, None)
      ∧ RequestURL req = URL_String env (set_RawQuery (Values_Encode env uv) u)
      ∧ fst out
        = httpclient_Do env (jupagImpl (client σ))
            (trace σ ++ [EvEncode uv; EvMarshal body]) req.
Proof.
  intros out. subst out. unfold Part001.request, NewRequest.
  destruct (url_Parse env endpoint) as [u|e];
    [|run; since; by intros ?%elem_of_nil].
  destruct (utils.StructToUrlValues env params) as [uv [e|]];
    [run; since; by intros ?%elem_of_nil|].
  run.
  destruct (any_is_nil body), (json_Marshal env body) as [data|e];
    cbn [negb fst snd]; repeat case_match; cbn [fst snd]; since;
    rewrite ?elem_of_cons, ?elem_of_nil;
    intros Hin; destruct_or?; simplify_eq; try done;
    (split; [reflexivity|]); (split; [reflexivity|]); (split; [reflexivity|]);
    exists u, uv; (split; [reflexivity|]); (split; [reflexivity|]);
    (split; [reflexivity|]);
    unfold emit; cbn [trace]; rewrite <- app_assoc; reflexivity.
Qed.

Lemma request001_hands_over_witness :
  let env := Scenario.quote_env [Cases.one_route] in
  let σ := Scenario.start (Struct := Part001.Struct Scenario.Route)
             Part001.NewJupag in
  let params := any_struct (Part001.S_QuoteParams Cases.quote_params001) in
  let out :=
    Part001.request env MethodGet Cases.quote_endpoint001 params any_nil σ in
  Header Cases.quote_request001 = ∅
  ∧ Method Cases.quote_request001 = MethodGet
  ∧ RequestBody Cases.quote_request001
    = match json_Marshal env any_nil with
      | Ok data => Some data | Err _ => None end
  ∧ ∃ u uv,
      url_Parse env Cases.quote_endpoint001 = Ok u
      ∧ utils.StructToUrlValues env params = (uv, None)
      ∧ RequestURL Cases.quote_request001
        = URL_String env (set_RawQuery (Values_Encode env uv) u)
      ∧ fst out
        = httpclient_Do env (jupagImpl (client σ))
            (trace σ ++ [EvEncode uv; EvMarshal any_nil])
            Cases.quote_request001.
Proof.
  intros env σ params out.
  apply (request001_hands_over env MethodGet Cases.quote_endpoint001 params
           any_nil σ Cases.quote_request001).
  apply list_elem_of_In. vm_compute. right. right. left. reflexivity.
Defined.

(** ** The quote of [part_001] and its two callers *)

Section quote001.
Context {Route : Type}.
Context (InAmt OutAmt : Route → string).
Context (env : Env (Part001.Struct Route) (Part001.QuoteResponse Route)).

Lemma Quote_cases (params : Part001.QuoteParams)
    (σ σ' : Store (Part001.Struct Route))
    (routes : Part001.QuoteResponse Route) (err : option error) :
  Part001.Quote env params σ = ((routes, err), σ') →
  (err = None ∧ slice_elems routes ≠ []) ∨ (err ≠ None ∧ routes = nil_slice).
Proof.
  unfold Part001.Quote. run. intros H.
  repeat case_match; simplify_eq; try (right; split; [done|reflexivity]).
  left. split; [reflexivity|].
  match goal with Hlen : (length _ =? 0)%nat = false |- _ =>
    apply Nat.eqb_neq in Hlen; intros Hnil; rewrite Hnil in Hlen; by cbn in Hlen
  end.
Qed.

(** [X7] [Quote] of [part_001] returns either no error and at least one
    route, or an error and the nil list: an empty list decoded from the
    response is turned into an error. *)
Theorem Quote_routes_or_error (params : Part001.QuoteParams)
    (σ : Store (Part001.Struct Route)) :
  let out := fst (Part001.Quote env params σ) in
  (snd out = None → slice_elems (fst out) ≠ [])
  ∧ (snd out ≠ None → fst out = nil_slice).
Proof.
  intros out. subst out.
  destruct (Part001.Quote env params σ) as [[routes err] σ'] eqn:HQ.
  cbn [fst snd].
  destruct (Quote_cases _ _ _ _ _ HQ) as [[-> Hne]|[Herr ->]]; split; done.
Qed.

(** [X8] [ExchangeRate] and [BestSwap] hand [GetBestRoute] only lists that
    have a route: two selections that agree on those lists give the same
    runs, so what a selection does on the empty list never shows. *)
Theorem best_route_of_nonempty
    (G1 G2 : Part001.QuoteResponse Route → Route * option error)
    (σ : Store (Part001.Struct Route)) :
  (∀ q, slice_elems q ≠ [] → G1 q = G2 q) →
  (∀ params, Part001.ExchangeRate InAmt OutAmt G1 env params σ
             = Part001.ExchangeRate InAmt OutAmt G2 env params σ)
  ∧ (∀ params, Part001.BestSwap G1 env params σ
               = Part001.BestSwap G2 env params σ).
Proof.
  intros HG. split; intros params.
  - unfold Part001.ExchangeRate. unfold bind.
    match goal with |- context [Part001.Quote env ?q σ] =>
      destruct (Part001.Quote env q σ) as [[routes err] σ1] eqn:HQ end.
    destruct (Quote_cases _ _ _ _ _ HQ) as [[-> Hne]|[Herr ->]].
    + rewrite (HG routes Hne). reflexivity.
    + destruct err; [reflexivity|done].
  - unfold Part001.BestSwap. unfold bind at 1. unfold bind at 2.
    match goal with |- context [Part001.Quote env ?q σ] =>
      destruct (Part001.Quote env q σ) as [[routes err] σ1] eqn:HQ end.
    destruct (Quote_cases _ _ _ _ _ HQ) as [[-> Hne]|[Herr ->]].
    + rewrite (HG routes Hne). reflexivity.
    + destruct err; [reflexivity|done].
Qed.

(** [X9] The rate [ExchangeRate] returns always carries the two mints of
    the parameters; with an error both amounts are zero, and in every case
    the amounts lie in the range of [uint64]. *)
Theorem ExchangeRate_rate_invariant
    (GetBestRoute : Part001.QuoteResponse Route → Route * option error)
    (params : ExchangeRateParams) (σ : Store (Part001.Struct Route)) :
  let out := fst (Part001.ExchangeRate InAmt OutAmt GetBestRoute env params σ) in
  rate_InputMint (fst out) = er_InputMint params
  ∧ rate_OutputMint (fst out) = er_OutputMint params
  ∧ (snd out ≠ None →
     rate_InAmount (fst out) = 0%Z ∧ rate_OutAmount (fst out) = 0%Z)
  ∧ (0 <= rate_InAmount (fst out) < two64)%Z
  ∧ (0 <= rate_OutAmount (fst out) < two64)%Z.
Proof.
  intros out. subst out. unfold Part001.ExchangeRate. unfold bind.
  destruct (Part001.Quote env _ σ) as [[routes [e|]] σ1];
    [cbn; unfold two64; repeat split; try lia; done|].
  destruct (GetBestRoute routes) as [route [e|]];
    [cbn; unfold two64; repeat split; try lia; done|].
  destruct (strconv.ParseInt (InAmt route) 10 64) as [a [e|]];
    [cbn; unfold two64; repeat split; try lia; done|].
  destruct (strconv.ParseInt (OutAmt route) 10 64) as [b [e|]];
    [cbn; unfold two64; repeat split; try lia; done|].
  cbn [fst snd ret rate_InputMint rate_OutputMint rate_InAmount rate_OutAmount].
  split; [reflexivity|]. split; [reflexivity|]. split; [done|].
  unfold to_uint64. split; apply Z.mod_pos_bound; reflexivity.
Qed.
End quote001.

(** The selection that answers the empty list with another error. *)
Lemma best_route_of_nonempty_witness :
  let env := Scenario.quote_env [Cases.one_route] in
  let σ := Scenario.start (Struct := Part001.Struct Scenario.Route)
             Part001.NewJupag in
  (∀ params,
      Part001.ExchangeRate Scenario.InAmount Scenario.OutAmount
        Scenario.first_route env params σ
      = Part001.ExchangeRate Scenario.InAmount Scenario.OutAmount
          Cases.first_route_or_panic_message env params σ)
  ∧ (∀ params,
        Part001.BestSwap Scenario.first_route env params σ
        = Part001.BestSwap Cases.first_route_or_panic_message env params σ).
Proof.
  intros env σ.
  apply (best_route_of_nonempty Scenario.InAmount Scenario.OutAmount env
           Scenario.first_route Cases.first_route_or_panic_message σ).
  intros q Hq. unfold Scenario.first_route, Cases.first_route_or_panic_message.
  destruct (slice_elems q); [done|reflexivity].
Defined.

(** ** How often the transport is called *)

Lemma sends_ret {Struct A} (a : A) : sends_at_most 0 (ret (Struct := Struct) a).
Proof. intros σ. exists []. split; [symmetry; apply app_nil_r|cbn; lia]. Qed.

Lemma sends_bind {Struct A B} (n1 n2 : nat) (m : M Struct A)
    (k : A → M Struct B) :
  sends_at_most n1 m → (∀ a, sends_at_most n2 (k a)) →
  sends_at_most (n1 + n2) (bind m k).
Proof.
  intros Hm Hk σ. unfold bind. destruct (Hm σ) as (evs1 & H1 & Hn1).
  destruct (m σ) as [a σ1]. cbn [snd] in H1.
  destruct (Hk a σ1) as (evs2 & H2 & Hn2).
  exists (evs1 ++ evs2)%list. rewrite H2, H1, <- app_assoc.
  split; [reflexivity|]. rewrite List.filter_app, length_app. lia.
Qed.

Lemma sends_at_most_events {Struct A} (n : nat) (m : M Struct A)
    (σ : Store Struct) :
  sends_at_most n m →
  (length (List.filter is_EvDo (events_since σ (snd (m σ)))) <= n)%nat.
Proof.
  intros H. destruct (H σ) as (evs & Heq & Hn).
  unfold events_since. rewrite Heq, drop_app_length. exact Hn.
Qed.

Lemma exec_sends000 (env : Env Part000.Struct QuoteResponse)
    (c : Calls000.Call) :
  sends_at_most 1 (Calls000.exec env c).
Proof.
  intros σ. destruct c; cbn [Calls000.exec]; unfold_methods; run;
    repeat case_match; simplify_eq; appended.
Qed.

(** [X10] A sequence of [n] calls of the methods of [part_000] only
    appends to the trace and calls the transport at most [n] times: no
    method retries or sends a second request on its own. *)
Theorem exec_all_sends000 (env : Env Part000.Struct QuoteResponse)
    (cs : list Calls000.Call) :
  sends_at_most (length cs) (Calls000.exec_all env cs).
Proof.
  induction cs as [|c cs IH]; cbn [Calls000.exec_all length].
  - apply sends_ret.
  - apply (sends_bind 1 (length cs)); [apply exec_sends000|intros _; exact IH].
Qed.

Section sends001.
Context {Route : Type}.
Context (InAmt OutAmt : Route → string).
Context (GetBestRoute : Part001.QuoteResponse Route → Route * option error).
Context (env : Env (Part001.Struct Route) (Part001.QuoteResponse Route)).

Lemma Quote_sends001 params : sends_at_most 1 (Part001.Quote env params).
Proof.
  intros σ. unfold_methods; run; repeat case_match; simplify_eq; appended.
Qed.

Lemma Swap_sends001 params : sends_at_most 0 (Part001.Swap env params).
Proof.
  intros σ. destruct (Swap001_stops_before_transport env params σ) as [err ->].
  exists []. split; [symmetry; apply app_nil_r|cbn; lia].
Qed.

Lemma BestSwap_sends001 params :
  sends_at_most 1 (Part001.BestSwap GetBestRoute env params).
Proof.
  unfold Part001.BestSwap. apply (sends_bind 1 0); [apply Quote_sends001|].
  intros [routes [err|]]; [apply sends_ret|].
  destruct (GetBestRoute routes) as [route [err|]]; [apply sends_ret|].
  apply (sends_bind 0 0); [apply Swap_sends001|].
  intros [swap [err|]]; apply sends_ret.
Qed.

Lemma ExchangeRate_sends001 params :
  sends_at_most 1 (Part001.ExchangeRate InAmt OutAmt GetBestRoute env params).
Proof.
  unfold Part001.ExchangeRate. apply (sends_bind 1 0); [apply Quote_sends001|].
  intros [routes [err|]]; [apply sends_ret|].
  destruct (GetBestRoute routes) as [route [err|]]; [apply sends_ret|].
  destruct (strconv.ParseInt (InAmt route) 10 64) as [a [err|]];
    [apply sends_ret|].
  destruct (strconv.ParseInt (OutAmt route) 10 64) as [b [err|]];
    apply sends_ret.
Qed.

Lemma exec_sends001 (c : Calls001.Call Route) :
  sends_at_most 1 (Calls001.exec InAmt OutAmt GetBestRoute env c).
Proof.
  destruct c; cbn [Calls001.exec].
  1-4: intros σ; unfold_methods; run; repeat case_match; simplify_eq; appended.
  - apply (sends_bind 1 0); [apply BestSwap_sends001|intros ?; apply sends_ret].
  - apply (sends_bind 1 0);
      [apply ExchangeRate_sends001|intros ?; apply sends_ret].
Qed.

(** [X11] A sequence of [n] calls of the methods of [part_001], [BestSwap]
    and [ExchangeRate] among them, only appends to the trace and calls the
    transport at most [n] times. *)
Theorem exec_all_sends001 (cs : list (Calls001.Call Route)) :
  sends_at_most (length cs)
    (Calls001.exec_all InAmt OutAmt GetBestRoute env cs).
Proof.
  induction cs as [|c cs IH]; cbn [Calls001.exec_all length].
  - apply sends_ret.
  - apply (sends_bind 1 (length cs)); [apply exec_sends001|intros _; exact IH].
Qed.

(** [X12] [Swap] of [part_001] hands [request] nil parameters as well: for
    every [SwapParams] it returns the error of the failed request, with the
    store, trace included, as before the call; when the endpoint parses,
    the error is that of the nil parameters. *)
Theorem Swap001_never_sends (params : Part001.SwapParams Route)
    (σ : Store (Part001.Struct Route)) :
  (∃ err,
      Part001.Swap env params σ
      = (("", Some (wrapError "failed to make swap request" err)), σ))
  ∧ (∀ u : URL,
        url_Parse env (Sprintf_ss (apiUrl (client σ)) (swapPath (client σ)))
        = Ok u →
        fst (Part001.Swap env params σ)
        = ("", Some (wrapError "failed to make swap request"
                       (wrapError "failed to convert params to url values"
                          (errorString "struct is nil"))))).
Proof.
  split; [apply Swap001_stops_before_transport|].
  intros u Hu. unfold Part001.Swap, Part001.request. run. rewrite Hu.
  reflexivity.
Qed.

(** [X13] [BestSwap] never yields a transaction: it returns the empty
    string and an error for every input, calls the transport at most once
    (for the quote), and marshals no body other than the nil body of the
    quote request, so no [SwapParams] is ever serialized. *)
Theorem BestSwap_never_swaps (params : BestSwapParams)
    (σ : Store (Part001.Struct Route)) :
  let out := Part001.BestSwap GetBestRoute env params σ in
  (∃ err, fst out = ("", Some err))
  ∧ (length (List.filter is_EvDo (events_since σ (snd out))) <= 1)%nat
  ∧ (∀ body, EvMarshal body ∈ events_since σ (snd out) → body = any_nil).
Proof.
  intros out. subst out.
  split; [apply BestSwap_always_fails|].
  split; [apply (sends_at_most_events 1 _ σ), BestSwap_sends001|].
  intros body. unfold Part001.BestSwap. unfold bind at 1.
  destruct (Part001.Quote env _ σ) as [[routes err] σ1] eqn:HQ.
  assert (∀ b, EvMarshal b ∈ events_since σ σ1 → b = any_nil) as HM.
  { clear -HQ. intros b. revert HQ. unfold_methods. run. intros HQ.
    repeat case_match; simplify_eq; since;
      rewrite ?elem_of_cons, ?elem_of_nil; intros Hin; destruct_or?;
      simplify_eq; done. }
  destruct err as [err|]; [apply HM|].
  destruct (GetBestRoute routes) as [route [err|]]; [apply HM|].
  unfold bind at 1.
  match goal with |- context [Part001.Swap env ?p σ1] =>
    destruct (Swap001_stops_before_transport env p σ1) as [err ->] end.
  apply HM.
Qed.

(** [X14] The quote [BestSwap] asks for always names a swap mode: the one
    given, or [ExactIn] when none is given; it carries the fee amount as
    [FeeBps], the mints and the amount of the parameters, and never asks
    for direct routes only. *)
Theorem BestSwap_quote_parameters (params : BestSwapParams)
    (σ : Store (Part001.Struct Route)) (uv : url_Values) :
  EvEncode uv
  ∈ events_since σ (snd (Part001.BestSwap GetBestRoute env params σ)) →
  ∃ mode,
    mode ≠ ""
    ∧ (bs_SwapMode params = "" → mode = SwapModeExactIn)
    ∧ (bs_SwapMode params ≠ "" → mode = bs_SwapMode params)
    ∧ query_Values env
        (Part001.S_QuoteParams
           {| Part001.InputMint := bs_InputMint params;
              Part001.OutputMint := bs_OutputMint params;
              Part001.Amount := bs_Amount params;
              Part001.FeeBps := bs_FeeAmount params;
              Part001.SwapMode := mode;
              Part001.OnlyDirectRoutes := false |}) = Ok uv.
Proof.
  unfold Part001.BestSwap.
  set (mode := if decide (bs_SwapMode params = "") then SwapModeExactIn
               else bs_SwapMode params).
  assert (mode ≠ ""
          ∧ (bs_SwapMode params = "" → mode = SwapModeExactIn)
          ∧ (bs_SwapMode params ≠ "" → mode = bs_SwapMode params))
    as (Hmode & Hdef & Hgiven).
  { subst mode. destruct (decide (bs_SwapMode params = "")); repeat split; done. }
  intros Hin. exists mode. split; [exact Hmode|].
  split; [exact Hdef|]. split; [exact Hgiven|].
  clearbody mode. revert Hin. unfold bind at 1.
  destruct (Part001.Quote env _ σ) as [[routes err] σ1] eqn:HQ.
  assert (EvEncode uv ∈ events_since σ σ1 →
          query_Values env
            (Part001.S_QuoteParams
               {| Part001.InputMint := bs_InputMint params;
                  Part001.OutputMint := bs_OutputMint params;
                  Part001.Amount := bs_Amount params;
                  Part001.FeeBps := bs_FeeAmount params;
                  Part001.SwapMode := mode;
                  Part001.OnlyDirectRoutes := false |}) = Ok uv) as HE.
  { clear -HQ. revert HQ. unfold_methods. unfold utils.StructToUrlValues.
    run. intros HQ.
    repeat case_match; simplify_eq; since;
      rewrite ?elem_of_cons, ?elem_of_nil; intros Hin; destruct_or?;
      simplify_eq; done. }
  destruct err as [err|]; [exact HE|].
  destruct (GetBestRoute routes) as [route [err|]]; [exact HE|].
  unfold bind at 1.
  match goal with |- context [Part001.Swap env ?p σ1] =>
    destruct (Swap001_stops_before_transport env p σ1) as [err ->] end.
  exact HE.
Qed.
End sends001.

(** A swap with no swap mode given, in the run of the quote. *)
Lemma BestSwap_quote_parameters_witness :
  ∃ mode,
    mode ≠ ""
    ∧ (bs_SwapMode Cases.swap_params = "" → mode = SwapModeExactIn)
    ∧ (bs_SwapMode Cases.swap_params ≠ "" → mode = bs_SwapMode Cases.swap_params)
    ∧ query_Values (Scenario.quote_env [Cases.one_route])
        (Part001.S_QuoteParams
           {| Part001.InputMint := bs_InputMint Cases.swap_params;
              Part001.OutputMint := bs_OutputMint Cases.swap_params;
              Part001.Amount := bs_Amount Cases.swap_params;
              Part001.FeeBps := bs_FeeAmount Cases.swap_params;
              Part001.SwapMode := mode;
              Part001.OnlyDirectRoutes := false |}) = Ok Cases.quote_values.
Proof.
  apply (BestSwap_quote_parameters Scenario.first_route
           (Scenario.quote_env [Cases.one_route]) Cases.swap_params
           (Scenario.start Part001.NewJupag) Cases.quote_values).
  apply list_elem_of_In. vm_compute. left. reflexivity.
Defined.

(** ** Status codes and errors of the methods of [part_000] *)

Section status000.
Context (env : Env Part000.Struct QuoteResponse).

(** [X15] When the transport answers with a status other than 200, [Quote]
    and [Price] return the zero value and an error that names the status
    code, and decode nothing of the response. *)
Theorem non_200_is_an_error (σ σ1 : Store Part000.Struct) (resp : HTTPResponse) :
  StatusCode resp ≠ StatusOK →
  (∀ p, Calls000.request_of env (Calls000.CallQuote p) σ = (Ok resp, σ1) →
        Part000.Quote env p σ
        = ((zero_QuoteResponse,
            Some (wrapError "failed to parse quote response"
                    (unexpected_status (StatusCode resp)))), σ1))
  ∧ (∀ p, Calls000.request_of env (Calls000.CallPrice p) σ = (Ok resp, σ1) →
          Part000.Price env p σ
          = ((None,
              Some (wrapError "failed to parse price response"
                      (unexpected_status (StatusCode resp)))), σ1)).
Proof.
  intros Hst. apply Z.eqb_neq in Hst.
  split; intros p Hreq;
    unfold Calls000.request_of, Part000.Quote, Part000.Price in *;
    unfold bind at 1 in Hreq; unfold self in Hreq at 1; cbn [fst snd] in Hreq;
    unfold bind at 1; unfold self at 1; cbn [fst snd];
    unfold bind at 1; rewrite Hreq;
    unfold bind at 1; rewrite parseResponse_cases, Hst; reflexivity.
Qed.

(** [X16] [RoutesMap] does not look at the status code: whatever the
    status of the response, a body that decodes is returned as the route
    map, with no error. *)
Theorem RoutesMap_ignores_status (b : bool) (σ σ1 : Store Part000.Struct)
    (resp : HTTPResponse) (routesMap : IndexedRoutesMap) :
  Calls000.request_of env (Calls000.CallRoutesMap b) σ = (Ok resp, σ1) →
  decode_IndexedRoutesMap env (Body resp) = (routesMap, None) →
  Part000.RoutesMap env b σ
  = ((routesMap, None), emit (EvDecode TIndexedRoutesMap (Body resp)) σ1).
Proof.
  intros Hreq Hdec.
  rewrite (RoutesMap_after_request env b σ σ1 resp Hreq), Hdec. reflexivity.
Qed.

(** [X17] [Price], [Swap] and [RoutesMap] return the zero value of their
    result type with every error: the nil map, the empty string, the empty
    route map. *)
Theorem error_returns_zero_value :
  (∀ p σ, let out := fst (Part000.Price env p σ) in
          snd out ≠ None → fst out = None)
  ∧ (∀ p σ, let out := fst (Part000.Swap env p σ) in
            snd out ≠ None → fst out = "")
  ∧ (∀ b σ, let out := fst (Part000.RoutesMap env b σ) in
            snd out ≠ None → fst out = zero_IndexedRoutesMap).
Proof.
  refine (conj _ (conj _ _)).
  - intros p σ out. subst out.
    destruct (Part000.Price env p σ) as [[v err] σ'] eqn:H.
    unfold Part000.Price in H. run. cbn [fst snd].
    repeat case_match; simplify_eq; done.
  - intros p σ out. subst out.
    destruct (Part000.Swap env p σ) as [[v err] σ'] eqn:H.
    unfold Part000.Swap in H. run. cbn [fst snd].
    repeat case_match; simplify_eq; done.
  - intros b σ out. subst out.
    destruct (Part000.RoutesMap env b σ) as [[v err] σ'] eqn:H.
    unfold Part000.RoutesMap in H. run. cbn [fst snd].
    repeat case_match; simplify_eq; done.
Qed.
End status000.

(** The service answers the quote with a 503. *)
Lemma non_200_is_an_error_witness :
  let σ := Scenario.start (Struct := Part000.Struct) Part000.NewJupag in
  fst (Part000.Quote Cases.unavailable_env Scenario.quote_params σ)
  = (zero_QuoteResponse,
     Some (wrapError "failed to parse quote response"
             (unexpected_status 503))).
Proof.
  intros σ.
  rewrite (proj1 (non_200_is_an_error Cases.unavailable_env σ
                    (snd (Calls000.request_of Cases.unavailable_env
                            (Calls000.CallQuote Scenario.quote_params) σ))
                    {| StatusCode := 503; Body := "Service Unavailable" |}
                    ltac:(discriminate))
             Scenario.quote_params eq_refl).
  reflexivity.
Defined.

(** The route map served with the status 404 is returned all the same. *)
Lemma RoutesMap_ignores_status_witness :
  let σ := Scenario.start (Struct := Part000.Struct) Part000.NewJupag in
  fst (Part000.RoutesMap Cases.not_found_env true σ)
  = (Scenario.route_map, None).
Proof.
  intros σ.
  rewrite (RoutesMap_ignores_status Cases.not_found_env true σ
             (snd (Calls000.request_of Cases.not_found_env
                     (Calls000.CallRoutesMap true) σ))
             {| StatusCode := 404; Body := Scenario.route_map_body |}
             Scenario.route_map eq_refl eq_refl).
  reflexivity.
Defined.

Section results000.
Context (env : Env Part000.Struct QuoteResponse).

(** [X18] After a 200 response whose envelope decodes, [Quote] and [Price]
    return what [Unmarshal] made of the [Data] field.  With an error of
    [Unmarshal], wrapped, [Quote] still returns the quote as [Unmarshal]
    left it, while [Price] returns the nil map.  An envelope that does not
    decode is an error of both. *)
Theorem results_after_200 (σ σ1 : Store Part000.Struct) (resp : HTTPResponse) :
  StatusCode resp = StatusOK →
  (∀ p response quote err,
      Calls000.request_of env (Calls000.CallQuote p) σ = (Ok resp, σ1) →
      decode_Response env (Body resp) = (response, None) →
      unmarshal_QuoteResponse env (Data response) = (quote, err) →
      fst (Part000.Quote env p σ)
      = (quote, option_map (wrapError "failed to parse quote response") err))
  ∧ (∀ p response price err,
        Calls000.request_of env (Calls000.CallPrice p) σ = (Ok resp, σ1) →
        decode_Response env (Body resp) = (response, None) →
        unmarshal_PriceMap env (Data response) = (price, err) →
        fst (Part000.Price env p σ)
        = (match err with None => price | Some _ => None end,
           option_map (wrapError "failed to parse price response") err))
  ∧ (∀ p response e,
        Calls000.request_of env (Calls000.CallQuote p) σ = (Ok resp, σ1) →
        decode_Response env (Body resp) = (response, Some e) →
        fst (Part000.Quote env p σ)
        = (zero_QuoteResponse,
           Some (wrapError "failed to parse quote response"
                   (wrapError "failed to decode response" e)))).
Proof.
  intros Hst.
  refine (conj _ (conj _ _)).
  - intros p response quote err Hreq Hdec Hun.
    unfold Calls000.request_of, Part000.Quote in *.
    unfold bind at 1 in Hreq. unfold self in Hreq at 1. cbn [fst snd] in Hreq.
    unfold bind at 1. unfold self at 1. cbn [fst snd].
    unfold bind at 1. rewrite Hreq.
    unfold bind at 1. rewrite parseResponse_cases, Hst, Hdec.
    change (negb (StatusOK =? StatusOK)%Z) with false. cbv iota.
    run. rewrite Hun. destruct err; reflexivity.
  - intros p response price err Hreq Hdec Hun.
    unfold Calls000.request_of, Part000.Price in *.
    unfold bind at 1 in Hreq. unfold self in Hreq at 1. cbn [fst snd] in Hreq.
    unfold bind at 1. unfold self at 1. cbn [fst snd].
    unfold bind at 1. rewrite Hreq.
    unfold bind at 1. rewrite parseResponse_cases, Hst, Hdec.
    change (negb (StatusOK =? StatusOK)%Z) with false. cbv iota.
    run. rewrite Hun. destruct err; reflexivity.
  - intros p response e Hreq Hdec.
    unfold Calls000.request_of, Part000.Quote in *.
    unfold bind at 1 in Hreq. unfold self in Hreq at 1. cbn [fst snd] in Hreq.
    unfold bind at 1. unfold self at 1. cbn [fst snd].
    unfold bind at 1. rewrite Hreq.
    unfold bind at 1. rewrite parseResponse_cases, Hst, Hdec.
    change (negb (StatusOK =? StatusOK)%Z) with false. cbv iota.
    reflexivity.
Qed.

(** [X19] Every request a method of [part_000] hands to the transport is a
    GET to the base URL followed by the path of that method, with the query
    encoding the parameters of the call and the marshalled nil body: the
    client never sends a POST. *)
Theorem endpoint_requests (c : Calls000.Call) (σ : Store Part000.Struct)
    (req : Request) :
  EvDo req ∈ events_since σ (snd (Calls000.exec env c σ)) →
  Method req = MethodGet
  ∧ RequestBody req
    = match json_Marshal env any_nil with Ok data => Some data | Err _ => None end
  ∧ ∃ u uv,
      url_Parse env
        (Sprintf_ss (apiUrl (client σ))
           match c with
           | Calls000.CallQuote _ => quotePath (client σ)
           | Calls000.CallSwap _ => swapPath (client σ)
           | Calls000.CallPrice _ => pricePath (client σ)
           | Calls000.CallRoutesMap _ => routesMapPath (client σ)
           end) = Ok u
      ∧ utils.StructToUrlValues env
          match c with
          | Calls000.CallQuote p => any_struct (Part000.S_QuoteParams p)
          | Calls000.CallSwap _ => any_nil
          | Calls000.CallPrice p => any_struct (Part000.S_PriceParams p)
          | Calls000.CallRoutesMap b =>
              any_Values
                {[ "onlyDirectRoutes" := [strconv.FormatBool b] ]}
          end = (uv, None)
      ∧ RequestURL req = URL_String env (set_RawQuery (Values_Encode env uv) u).
Proof.
  destruct c; cbn [Calls000.exec]; unfold_methods; run;
    repeat case_match; simplify_eq; cbn [fst snd]; since;
    rewrite ?elem_of_cons, ?elem_of_nil;
    intros Hin; destruct_or?; simplify_eq; try done;
    (split; [reflexivity|]);
    (split;
       [cbn [RequestBody Header_Set];
        repeat match goal with
               | H : json_Marshal _ _ = _ |- _ => rewrite H
               end; reflexivity|]);
    eexists _, _;
    (split; [first [eassumption | reflexivity]|]);
    (split; [first [eassumption | reflexivity]|]);
    reflexivity.
Qed.
End results000.

(** A quote answered in an envelope is returned as unmarshalled. *)
Lemma results_after_200_witness :
  let σ := Scenario.start (Struct := Part000.Struct) Part000.NewJupag in
  fst (Part000.Quote Cases.quoted_env Scenario.quote_params σ)
  = (Cases.a_quote, None).
Proof.
  intros σ.
  rewrite (proj1 (results_after_200 Cases.quoted_env σ
                    (snd (Calls000.request_of Cases.quoted_env
                            (Calls000.CallQuote Scenario.quote_params) σ))
                    {| StatusCode := 200; Body := "<envelope>" |} eq_refl)
             Scenario.quote_params
             {| Data := Some "<quote>"; TimeTaken := 0%Z; ContextSlot := 7%Z |}
             Cases.a_quote None eq_refl eq_refl eq_refl).
  reflexivity.
Defined.

(** The request of a quote in the run of the envelope. *)
Lemma endpoint_requests_witness :
  Method Cases.quote_request000 = MethodGet.
Proof.
  apply (endpoint_requests Cases.quoted_env
           (Calls000.CallQuote Scenario.quote_params)
           (Scenario.start Part000.NewJupag) Cases.quote_request000).
  apply list_elem_of_In. vm_compute. right. right. left. reflexivity.
Defined.

(** * The selection of the best route *)

Section best_route.
Context {Route : Type}.
Context (better : Route → Route → bool).

Lemma GetBestRoute_scan_elem (rest : list Route) :
  ∀ best, GetBestRoute_scan better best rest ∈ best :: rest.
Proof.
  induction rest as [|r rest IH]; intros best; cbn [GetBestRoute_scan].
  - apply list_elem_of_here.
  - specialize (IH (if better r best then r else best)).
    apply elem_of_cons in IH as [Heq|Hin].
    + rewrite Heq. destruct (better r best).
      * apply list_elem_of_further, list_elem_of_here.
      * apply list_elem_of_here.
    + by do 2 apply list_elem_of_further.
Qed.

Lemma GetBestRoute_scan_snoc (l : list Route) (r : Route) :
  ∀ best,
    GetBestRoute_scan better best (l ++ [r])%list
    = if better r (GetBestRoute_scan better best l) then r
      else GetBestRoute_scan better best l.
Proof.
  induction l as [|x l IH]; intros best; [reflexivity|].
  cbn [app GetBestRoute_scan]. apply IH.
Qed.

Section order.
Hypothesis better_irreflexive : ∀ a, better a a = false.
Hypothesis better_transitive :
  ∀ a b c, better a b = true → better b c = true → better a c = true.

Lemma GetBestRoute_scan_keeps (rest : list Route) :
  ∀ best x, better x best = false →
            better x (GetBestRoute_scan better best rest) = false.
Proof.
  induction rest as [|r rest IH]; intros best x Hx; [exact Hx|].
  cbn [GetBestRoute_scan]. apply IH.
  destruct (better r best) eqn:Hr; [|exact Hx].
  destruct (better x r) eqn:Hxr; [|reflexivity].
  rewrite (better_transitive x r best Hxr Hr) in Hx. discriminate.
Qed.

Lemma GetBestRoute_scan_maximal (rest : list Route) :
  ∀ best x, x ∈ best :: rest →
            better x (GetBestRoute_scan better best rest) = false.
Proof.
  induction rest as [|r rest IH]; intros best x Hx.
  - apply list_elem_of_singleton in Hx as ->. apply better_irreflexive.
  - cbn [GetBestRoute_scan].
    apply elem_of_cons in Hx as [->|Hx].
    + apply GetBestRoute_scan_keeps.
      destruct (better r best) eqn:Hr; [|apply better_irreflexive].
      destruct (better best r) eqn:Hbr; [|reflexivity].
      rewrite <- (better_irreflexive best).
      symmetry. exact (better_transitive best r best Hbr Hr).
    + apply elem_of_cons in Hx as [->|Hx].
      * apply GetBestRoute_scan_keeps.
        destruct (better r best) eqn:Hr; [apply better_irreflexive|exact Hr].
      * apply IH. by apply list_elem_of_further.
Qed.
End order.
End best_route.

(** [C3] The selection of the best route is one pass over the list of
    routes, from left to right, comparing routes pairwise.  On an empty
    list it returns an error.  On a list with routes it returns no error
    and a route of that list: the only route of a list of one, and, for a
    list with one more route at its end, that last route when it is better
    than the best of the routes before it, and else that best.  When
    "better" is a strict order, no route of the list is better than the
    one returned.  [ExchangeRate] parses the two amounts of the route
    selected from the list [Quote] returned, and [BestSwap] hands that
    route to [Swap]. *)
Theorem GetBestRoute_linear_scan {Route : Type}
    (better : Route → Route → bool) (no_route : Route)
    (no_routes_error : error) :
  let best := GetBestRoute better no_route no_routes_error in
  (∀ q, slice_elems q = [] → best q = (no_route, Some no_routes_error))
  ∧ (∀ q, slice_elems q ≠ [] →
          snd (best q) = None ∧ fst (best q) ∈ slice_elems q)
  ∧ (∀ r, best (make_slice [r]) = (r, None))
  ∧ (∀ l r, l ≠ [] →
            fst (best (make_slice (l ++ [r])%list))
            = if better r (fst (best (make_slice l))) then r
              else fst (best (make_slice l)))
  ∧ ((∀ a, better a a = false) →
     (∀ a b c, better a b = true → better b c = true → better a c = true) →
     ∀ q r, r ∈ slice_elems q → better r (fst (best q)) = false)
  ∧ (∀ (InAmt OutAmt : Route → string)
       (env : Env (Part001.Struct Route) (Part001.QuoteResponse Route))
       (params : ExchangeRateParams) (σ σ' : Store (Part001.Struct Route))
       (routes : Part001.QuoteResponse Route),
        Part001.Quote env
          {| Part001.InputMint := er_InputMint params;
             Part001.OutputMint := er_OutputMint params;
             Part001.Amount := er_Amount params;
             Part001.FeeBps := 0;
             Part001.SwapMode := er_SwapMode params;
             Part001.OnlyDirectRoutes := false |} σ = ((routes, None), σ') →
        fst (best routes) ∈ slice_elems routes
        ∧ Part001.ExchangeRate InAmt OutAmt best env params σ
          = (let route := fst (best routes) in
             let result := {| rate_InputMint := er_InputMint params;
                              rate_OutputMint := er_OutputMint params;
                              rate_InAmount := 0; rate_OutAmount := 0 |} in
             match strconv.ParseInt (InAmt route) 10 64 with
             | (_, Some err) =>
                 (result, Some (wrapError "failed to parse in amount" err))
             | (inAmount, None) =>
                 match strconv.ParseInt (OutAmt route) 10 64 with
                 | (_, Some err) =>
                     (result,
                      Some (wrapError "failed to parse out amount" err))
                 | (outAmount, None) =>
                     ({| rate_InputMint := er_InputMint params;
                         rate_OutputMint := er_OutputMint params;
                         rate_InAmount := to_uint64 inAmount;
                         rate_OutAmount := to_uint64 outAmount |}, None)
                 end
             end, σ'))
  ∧ (∀ (env : Env (Part001.Struct Route) (Part001.QuoteResponse Route))
       (params : BestSwapParams) (σ σ' : Store (Part001.Struct Route))
       (routes : Part001.QuoteResponse Route),
        Part001.Quote env
          {| Part001.InputMint := bs_InputMint params;
             Part001.OutputMint := bs_OutputMint params;
             Part001.Amount := bs_Amount params;
             Part001.FeeBps := bs_FeeAmount params;
             Part001.SwapMode :=
               if decide (bs_SwapMode params = "") then SwapModeExactIn
               else bs_SwapMode params;
             Part001.OnlyDirectRoutes := false |} σ = ((routes, None), σ') →
        fst (best routes) ∈ slice_elems routes
        ∧ Part001.BestSwap best env params σ
          = (let out :=
               Part001.Swap env
                 {| Part001.SwapRoute := fst (best routes);
                    Part001.UserPublicKey := bs_UserPublicKey params;
                    Part001.DestinationWallet := bs_DestinationPublicKey params;
                    Part001.FeeAccount := bs_FeeAccount params;
                    Part001.WrapUnwrapSol := utils.Pointer true;
                    Part001.AsLegacyTransaction := utils.Pointer true |} σ' in
             (match snd (fst out) with
              | Some err => ("", Some err)
              | None => (fst (fst out), None)
              end, snd out))).
Proof.
  intros best.
  assert (∀ q, slice_elems q ≠ [] →
               best q = (fst (best q), None)
               ∧ fst (best q) ∈ slice_elems q) as Hsome.
  { intros q Hq. subst best. unfold GetBestRoute.
    destruct (slice_elems q) as [|r rest]; [done|].
    cbn [fst]. split; [reflexivity|apply GetBestRoute_scan_elem]. }
  refine (conj _ (conj _ (conj _ (conj _ (conj _ (conj _ _)))))).
  - intros q Hq. subst best. unfold GetBestRoute. by rewrite Hq.
  - intros q Hq. destruct (Hsome q Hq) as [Heq Hin].
    split; [by rewrite Heq|exact Hin].
  - reflexivity.
  - intros l r Hl. subst best. unfold GetBestRoute. cbn [slice_elems].
    destruct l as [|x l]; [done|].
    cbn [app fst]. apply GetBestRoute_scan_snoc.
  - intros Hirr Htr q r Hr. subst best. unfold GetBestRoute.
    destruct (slice_elems q) as [|x rest]; [by apply elem_of_nil in Hr|].
    cbn [fst]. by apply GetBestRoute_scan_maximal.
  - intros InAmt OutAmt env params σ σ' routes HQ.
    destruct (Quote_cases env _ _ _ _ _ HQ) as [[_ Hne]|[Herr _]]; [|done].
    destruct (Hsome routes Hne) as [Heq Hin].
    split; [exact Hin|].
    exact (ExchangeRate_after_quote InAmt OutAmt best env params σ σ'
             routes (fst (best routes)) HQ Heq).
  - intros env params σ σ' routes HQ.
    destruct (Quote_cases env _ _ _ _ _ HQ) as [[_ Hne]|[Herr _]]; [|done].
    destruct (Hsome routes Hne) as [Heq Hin].
    split; [exact Hin|].
    unfold Part001.BestSwap. unfold bind at 1. rewrite HQ. cbv zeta.
    destruct (best routes) as [route e]. cbn [fst] in Heq |- *.
    injection Heq as ->. unfold bind at 1.
    match goal with |- context [Part001.Swap env ?p σ'] =>
      destruct (Part001.Swap env p σ') as [[swap [err|]] σ2] end;
      reflexivity.
Qed.

(** Three routes, the second giving most: [ExchangeRate] returns the
    amounts of the second. *)
Lemma GetBestRoute_linear_scan_witness :
  let best := GetBestRoute Cases.gives_more Cases.no_route
                (errorString "no routes found") in
  fst (Part001.ExchangeRate Scenario.InAmount Scenario.OutAmount best
         (Scenario.quote_env Cases.three_routes)
         Scenario.rate_params (Scenario.start Part001.NewJupag))
  = ({| rate_InputMint := "SOL"; rate_OutputMint := "USDC";
        rate_InAmount := 1001; rate_OutAmount := 2600 |}, None).
Proof.
  intros best.
  set (σ := Scenario.start (Struct := Part001.Struct Scenario.Route)
              Part001.NewJupag).
  set (q := {| Part001.InputMint := er_InputMint Scenario.rate_params;
               Part001.OutputMint := er_OutputMint Scenario.rate_params;
               Part001.Amount := er_Amount Scenario.rate_params;
               Part001.FeeBps := 0;
               Part001.SwapMode := er_SwapMode Scenario.rate_params;
               Part001.OnlyDirectRoutes := false |}).
  assert (Part001.Quote (Scenario.quote_env Cases.three_routes) q σ
          = ((make_slice Cases.three_routes, None),
             snd (Part001.Quote (Scenario.quote_env Cases.three_routes) q σ)))
    as HQ by (vm_compute; reflexivity).
  subst best.
  rewrite (proj2 (proj1 (proj2 (proj2 (proj2 (proj2 (proj2
             (GetBestRoute_linear_scan Cases.gives_more Cases.no_route
                (errorString "no routes found")))))))
             Scenario.InAmount Scenario.OutAmount
             (Scenario.quote_env Cases.three_routes) Scenario.rate_params
             σ _ (make_slice Cases.three_routes) HQ)).
  vm_compute. reflexivity.
Defined.
